(** * Zeus STV forms: a shallow embedding of the election and ballot forms

  The development follows [zeus/forms.py] (the forms [StvForm],
  [UniCouncilsGrForm], [STVBallotForm], [STVElectionForm], the question
  forms and parts of [ElectionForm]), the views [stv_count] and [demo] of
  [zeus/views/site.py] and the date and time widget of [zeus/widgets.py].
  Python dictionaries are finite maps, Python lists are lists, exceptions
  are an explicit error result and the loops of the source are structural
  recursions over the sequence they enumerate. *)

From Stdlib Require Import ZArith Ascii.
From stdpp Require Import gmap strings list pretty sorting.

Open Scope Z_scope.
Open Scope nat_scope.

(** ** Python values, exceptions and string helpers *)

Module Py.

(** The exceptions the modelled code can raise. *)
Inductive exn : Type :=
| ValidationError (msg : string)
| KeyError (key : string)
| TypeError
| IndexError
| ValueError.

Inductive result (A : Type) : Type :=
| Ok (a : A)
| Raise (e : exn).
Arguments Ok {A} a.
Arguments Raise {A} e.

Definition is_ok {A} (r : result A) : bool :=
  match r with Ok _ => true | Raise _ => false end.

Definition bind {A B} (r : result A) (k : A → result B) : result B :=
  match r with Ok a => k a | Raise e => Raise e end.

(** Truth value of a string: [bool(s)] is false exactly for the empty
    string. *)
Definition truthy (s : string) : bool :=
  match s with EmptyString => false | String _ _ => true end.

(** [len(l) != len(set(l))] and [len(l) > len(set(l))]: the set of a list
    of hashable values. *)
Definition len_set `{Countable A} (l : list A) : nat :=
  size (list_to_set l : gset A).

(** [c in s] for a one-character string [c]. *)
Fixpoint contains (c : ascii) (s : string) : bool :=
  match s with
  | EmptyString => false
  | String d r => bool_decide (d = c) || contains c r
  end.

(** White space as [str.strip()] sees it on the ASCII range: tab, line
    feed, vertical tab, form feed, carriage return, the four separators
    FS, GS, RS, US, and the space. *)
Definition is_space (c : ascii) : bool :=
  let n := nat_of_ascii c in
  ((9 <=? n) && (n <=? 13)) || ((28 <=? n) && (n <=? 32)).

Fixpoint lstrip (s : string) : string :=
  match s with
  | EmptyString => EmptyString
  | String c r => if is_space c then lstrip r else s
  end.

Fixpoint rstrip (s : string) : string :=
  match s with
  | EmptyString => EmptyString
  | String c r =>
      match rstrip r with
      | EmptyString => if is_space c then EmptyString else String c EmptyString
      | r' => String c r'
      end
  end.

(** [s.strip()] *)
Definition strip (s : string) : string := rstrip (lstrip s).

(** [s.split(sep)] for a one-character separator: every occurrence
    splits, so the result has one more part than there are separators. *)
Fixpoint split (sep : ascii) (s : string) : list string :=
  match s with
  | EmptyString => [EmptyString]
  | String c r =>
      if bool_decide (c = sep) then EmptyString :: split sep r
      else match split sep r with
           | h :: t => String c h :: t
           | [] => [String c EmptyString]
           end
  end.

(** [s.replace(a, b)] for one-character strings [a] and [b]. *)
Fixpoint replace (a b : ascii) (s : string) : string :=
  match s with
  | EmptyString => EmptyString
  | String c r => String (if bool_decide (c = a) then b else c) (replace a b r)
  end.

(** The value of a run of decimal digits, [None] when a character is not a
    digit. *)
Fixpoint digits (s : string) (acc : Z) : option Z :=
  match s with
  | EmptyString => Some acc
  | String c r =>
      match Ascii.is_nat c with
      | Some d => digits r (10 * acc + Z.of_nat d)%Z
      | None => None
      end
  end.

Definition unsigned (s : string) : option Z :=
  match s with
  | EmptyString => None
  | String _ _ => digits s 0%Z
  end.

(** [int(s)] on an ASCII string of decimal digits: surrounding white
    space is ignored, one sign is allowed, at least one decimal digit is
    required and nothing else is accepted; the underscores that [int] also
    allows between digits are not modelled.  [None] stands for
    [ValueError]. *)
Definition int (s : string) : option Z :=
  match strip s with
  | String "+"%char r => unsigned r
  | String "-"%char r => Z.opp <$> unsigned r
  | r => unsigned r
  end.

(** The values found in the cleaned data of the question forms.  [VJson l]
    is the string that [json.dumps] gives for the list [l], whose items are
    strings or [None]; such a string is never empty. *)
Inductive value : Type :=
| VNone
| VBool (b : bool)
| VInt (n : Z)
| VStr (s : string)
| VJson (l : list (option string)).

(** [bool(v)] *)
Definition truth (v : value) : bool :=
  match v with
  | VNone => false
  | VBool b => b
  | VInt n => negb (n =? 0)%Z
  | VStr s => truthy s
  | VJson _ => true
  end.

(** [int(v)] *)
Definition int_of (v : value) : result Z :=
  match v with
  | VNone => Raise TypeError
  | VBool b => Ok (if b then 1 else 0)%Z
  | VInt n => Ok n
  | VStr s => match int s with Some n => Ok n | None => Raise ValueError end
  | VJson _ => Raise ValueError
  end.

(** [json.loads(v)] on the strings the candidate widget submits. *)
Definition json_loads (v : value) : result (list (option string)) :=
  match v with
  | VJson l => Ok l
  | VStr _ => Raise ValueError
  | _ => Raise TypeError
  end.

(** The numbers the code computes with: an [int], or the [float] that the
    division [/] gives for two [int]s, kept as the fraction it stands
    for. *)
Inductive number : Type :=
| PInt (n : Z)
| PFloat (numerator denominator : Z).

(** [range(n)]: the bound has to be an [int]; a [float] raises
    [TypeError], whatever its value. *)
Definition range (n : number) : result (list nat) :=
  match n with
  | PInt n => Ok (seq 0 (Z.to_nat n))
  | PFloat _ _ => Raise TypeError
  end.

End Py.

Export Py.

(** ** The framework's choice field and form cleaning, as used by the ballot
  form *)

Module Django.

(** [ChoiceField(choices=..., required=False).clean(value)]: an absent or
    empty submission is cleaned to the empty string; any other value must
    be the key of one of the choices. *)
Definition valid_value (choices : list (string * string)) (value : string) : bool :=
  existsb (λ kv, bool_decide (value = kv.1)) choices.

Definition ChoiceField_clean (choices : list (string * string))
    (value : option string) : result string :=
  let value := default "" value in
  if truthy value && negb (valid_value choices value)
  then Raise (ValidationError
                ("Select a valid choice. " +:+ value +:+
                 " is not one of the available choices."))
  else Ok value.

(** The key under which [clean()] errors are stored. *)
Definition NON_FIELD_ERRORS : string := "__all__".

(** A bound form after (or during) cleaning. *)
Record form : Type := Form {
  cleaned_data : gmap string string;
  errors : list (string * exn)
}.

Definition is_valid (f : form) : bool :=
  match errors f with [] => true | _ :: _ => false end.

End Django.

Export Django.

(** ** [STVBallotForm] *)

Module STVBallotForm.

Record preference : Type := Preference {
  rank : nat;
  candidateTmpId : string
}.

Record vote : Type := Vote {
  votes : list preference;
  ballotSerialNumber : nat
}.

Global Instance preference_eq_dec : EqDecision preference.
Proof. solve_decision. Defined.

Global Instance vote_eq_dec : EqDecision vote.
Proof. solve_decision. Defined.

(** ["choice_%d" % (i + 1)] *)
Definition choice_key (i : nat) : string := "choice_" +:+ pretty (i + 1).

(** [__init__]: the choices are the empty choice followed by
    [(str(i), c)] for the enumerated candidates; there is one choice field
    per candidate. *)
Definition choices (candidates : list string) : list (string * string) :=
  ("", "") :: imap (λ i c, (pretty i, c)) candidates.

Definition fields (candidates : list string) : list string :=
  imap (λ i _, choice_key i) candidates.

(** The value submitted for the choice field of index [i], the empty
    string when nothing was submitted. *)
Definition submitted (data : gmap string string) (i : nat) : string :=
  default "" (data !! choice_key i).

(** [self.cleaned_data.get("choice_%d" % (i + 1), "")] *)
Definition get_val (cd : gmap string string) (i : nat) : string :=
  default "" (cd !! choice_key i).

(** The loop of [get_choices], started at index [i] with the preferences
    appended so far. *)
Fixpoint get_choices_loop (cd : gmap string string) (i : nat)
    (cands : list string) (acc : list preference) : list preference :=
  match cands with
  | [] => acc
  | _ :: rest =>
      let val := get_val cd i in
      if negb (truthy val) then acc
      else get_choices_loop cd (S i) rest
             (acc ++ [Preference (i + 1) val])
  end.

Definition get_choices (candidates : list string) (cd : gmap string string)
    (serial : nat) : vote :=
  Vote (get_choices_loop cd 0 candidates []) serial.

(** The loop of [clean], carrying the flag [empty] and the list
    [choices]. *)
Fixpoint clean_loop (cd : gmap string string) (i : nat)
    (cands : list string) (empty : bool) (chosen : list string)
    : result (list string) :=
  match cands with
  | [] => Ok chosen
  | _ :: rest =>
      let val := get_val cd i in
      let empty := if bool_decide (val = "") then true else empty in
      if truthy val && empty
      then Raise (ValidationError "Invalid ballot")
      else clean_loop cd (S i) rest empty
             (if truthy val then chosen ++ [val] else chosen)
  end.

Definition clean (candidates : list string) (cd : gmap string string)
    : result (gmap string string) :=
  match clean_loop cd 0 candidates false [] with
  | Raise e => Raise e
  | Ok chosen =>
      if bool_decide (length chosen ≠ len_set chosen)
      then Raise (ValidationError "Invalid ballot")
      else Ok cd
  end.

(** The framework's [_clean_fields] for this form: every field is cleaned
    by the choice field; a failing field is recorded in [errors] and left
    out of [cleaned_data]. *)
Fixpoint clean_fields (chs : list (string * string))
    (data : gmap string string) (names : list string) (f : form) : form :=
  match names with
  | [] => f
  | name :: rest =>
      let f' :=
        match ChoiceField_clean chs (data !! name) with
        | Ok v => Form (<[name := v]> (cleaned_data f)) (errors f)
        | Raise e =>
            Form (delete name (cleaned_data f)) (errors f ++ [(name, e)])
        end in
      clean_fields chs data rest f'
  end.

(** The framework's [_clean_form]: [clean()] is run even when a field
    failed; a [ValidationError] it raises becomes a form error. *)
Definition clean_form (candidates : list string) (f : form) : form :=
  match clean candidates (cleaned_data f) with
  | Ok cd => Form cd (errors f)
  | Raise e => Form (cleaned_data f) (errors f ++ [(NON_FIELD_ERRORS, e)])
  end.

(** [has_changed()]: some field was submitted with a value different from
    its initial value, the empty string. *)
Definition has_changed (candidates : list string)
    (data : gmap string string) : bool :=
  existsb (λ name, truthy (default "" (data !! name))) (fields candidates).

(** [full_clean()]: a form of a formset that may be left empty and was not
    changed is not validated and has an empty [cleaned_data]. *)
Definition full_clean (candidates : list string) (empty_permitted : bool)
    (data : gmap string string) : form :=
  let f0 := Form ∅ [] in
  if empty_permitted && negb (has_changed candidates data) then f0
  else clean_form candidates
         (clean_fields (choices candidates) data (fields candidates) f0).

End STVBallotForm.

(** ** [STVElectionForm] *)

Module STVElectionForm.

(** The cleaned data of a valid election form, one component per field. *)
Record cleaned : Type := Cleaned {
  name : string;
  voting_starts : string;
  voting_ends : string;
  institution : string;
  candidates : list string;
  eligibles_count : string;
  elected_limit : option Z;
  ballots_count : string
}.

Record candidate_entry : Type := Entry {
  lastName : string;
  fatherName : string;
  candidateTmpId : nat;
  firstName : string
}.

(** The election data handed to the count; [schools] is the list of
    [{"candidates": cands, "Name": school}] dictionaries, kept as the map
    from the school to its candidates. *)
Record election_data : Type := Election {
  elName : string;
  electedLimit : Z;
  votingStarts : string;
  votingEnds : string;
  el_institution : string;
  numOfEligibles : Z;
  schools : gmap string (list candidate_entry);
  ballots : list STVBallotForm.vote
}.

(** The loop of [clean_candidates] over the stripped lines. *)
Fixpoint check_candidates (cs : list string) : result unit :=
  match cs with
  | [] => Ok ()
  | c :: rest =>
      if bool_decide (length (split "," c) ≠ 4)
      then Raise (ValidationError ("Candidate " +:+ c +:+ " is invalid"))
      else check_candidates rest
  end.

Definition clean_candidates (submitted : string) : result (list string) :=
  let candidates := strip submitted in
  let candidates := map strip (split "010" candidates) in
  bind (check_candidates candidates) (λ _, Ok candidates).

(** The format of a candidate: the first three parts separated by a
    space, then a colon and the fourth part; further parts are ignored. *)
Definition format_candidate (parts : list string) : result string :=
  match parts with
  | a :: b :: c :: d :: _ => Ok (a +:+ " " +:+ b +:+ " " +:+ c +:+ ":" +:+ d)
  | _ => Raise IndexError
  end.

Fixpoint get_candidates_loop (cs : list string) : result (list string) :=
  match cs with
  | [] => Ok []
  | c :: rest =>
      bind (format_candidate (map (λ x, replace " " "-" (strip x)) (split "," c)))
        (λ c', bind (get_candidates_loop rest) (λ rest', Ok (c' :: rest')))
  end.

Definition get_candidates (data : cleaned) : result (list string) :=
  get_candidates_loop (candidates data).

(** The loop of [get_data] that files every candidate under its school. *)
Fixpoint schools_loop (i : nat) (cands : list string)
    (acc : gmap string (list candidate_entry))
    : result (gmap string (list candidate_entry)) :=
  match cands with
  | [] => Ok acc
  | c :: rest =>
      match split ":" c with
      | [nm; school] =>
          match split " " nm with
          | [first; surname; fathername] =>
              let entry := Entry surname fathername i first in
              schools_loop (S i) rest
                (<[school := default [] (acc !! school) ++ [entry]]> acc)
          | _ => Raise ValueError
          end
      | _ => Raise ValueError
      end
  end.

(** [data.get("elected_limit") or 0] *)
Definition or_zero (limit : option Z) : Z :=
  match limit with
  | None => 0%Z
  | Some n => if (n =? 0)%Z then 0%Z else n
  end.

Definition get_data (data : cleaned) : result election_data :=
  bind (int_of (VStr (eligibles_count data))) (λ eligibles,
  bind (get_candidates data) (λ cands,
  bind (schools_loop 0 cands ∅) (λ schools,
    Ok (Election (name data) (or_zero (elected_limit data))
          (voting_starts data) (voting_ends data) (institution data)
          eligibles schools [])))).

End STVElectionForm.

(** ** The view [stv_count]: assembling the ballots *)

Module Site.

Import STVBallotForm STVElectionForm.

(** The loop over the ballot formset: [forms] are the cleaned forms from
    position [i] on, [acc] is [el['ballots']]. *)
Fixpoint ballots_loop (cands : list string) (i : nat) (forms : list form)
    (acc : list vote) : list vote :=
  match forms with
  | [] => acc
  | b :: rest =>
      let choices := get_choices cands (cleaned_data b) (i + 1) in
      match votes choices with
      | [] => ballots_loop cands (S i) rest acc
      | _ :: _ =>
          ballots_loop cands (S i) rest
            (acc ++ [get_choices cands (cleaned_data b) (i + 1)])
      end
  end.

(** A submitted ballot formset: for every form whether it may be left
    empty, and its submitted data by field name. *)
Definition formset : Type := list (bool * gmap string string).

Definition bound_forms (cands : list string) (fs : formset) : list form :=
  map (λ '(empty_permitted, data), full_clean cands empty_permitted data) fs.

(** The branch of [stv_count] taken when a valid election form is posted
    together with the ballots: [Ok None] is the page with the error
    'Invalid ballot data', [Ok (Some el)] is the election data given to
    [stv_count_and_report].  The branch without the request parameter
    [form], which gives the content of an uploaded file to the count, is
    not embedded. *)
Definition stv_count (data : cleaned) (fs : formset)
    : result (option election_data) :=
  bind (get_candidates data) (λ cands,
  bind (int_of (VStr (ballots_count data))) (λ formset_count,
    let ballots_form := bound_forms cands fs in
    if forallb is_valid ballots_form then
      bind (get_data data) (λ el,
        Ok (Some (Election (elName el) (electedLimit el) (votingStarts el)
                    (votingEnds el) (el_institution el) (numOfEligibles el)
                    (schools el)
                    (ballots_loop cands 0 ballots_form (ballots el)))))
    else Ok None)).

(** The ballot list handed to the counting engine, when the view gets
    that far. *)
Definition handed_ballots (data : cleaned) (fs : formset)
    : option (list vote) :=
  match stv_count data fs with
  | Ok (Some el) => Some (ballots el)
  | _ => None
  end.

End Site.

(** ** [StvForm] and [UniCouncilsGrForm] *)

Module StvForm.

(** A bound question form: its prefix, the keys of the submitted data, the
    cleaned data and the errors recorded per field. *)
Record qform : Type := QForm {
  prefix : string;
  data_keys : list string;
  cleaned : gmap string value;
  field_errors : gmap string (list string)
}.

(** Methods of the form read and update the form and may raise. *)
Definition M (A : Type) : Type := qform → result A * qform.

Global Instance M_ret : MRet M := λ A a f, (Ok a, f).

Global Instance M_bind : MBind M := λ A B k m f,
  match m f with
  | (Ok a, f') => k a f'
  | (Raise e, f') => (Raise e, f')
  end.

Definition raise {A} (e : exn) : M A := λ f, (Raise e, f).

(** [self.cleaned_data[key]] *)
Definition item (key : string) : M value := λ f,
  match cleaned f !! key with
  | Some v => (Ok v, f)
  | None => (Raise (KeyError key), f)
  end.

(** [self.cleaned_data.get(key)] *)
Definition get (key : string) : M value := λ f,
  (Ok (default VNone (cleaned f !! key)), f).

(** [self.cleaned_data[key] = v] *)
Definition store (key : string) (v : value) : M unit := λ f,
  (Ok (), QForm (prefix f) (data_keys f) (<[key := v]> (cleaned f))
            (field_errors f)).

(** [self._errors[key] = ErrorList([message])] *)
Definition store_error (key message : string) : M unit := λ f,
  (Ok (), QForm (prefix f) (data_keys f) (cleaned f)
            (<[key := [message]]> (field_errors f))).

Definition cleaned_data : M (gmap string value) := λ f, (Ok (cleaned f), f).

Definition answer_widget_values_len : nat := 2.

(** The number of answers that [clean] computes: the submitted keys that
    start with the prefix followed by [-answer_], divided by the number of
    values of the candidate widget.  The division [/] is the true division
    of Python 3, the language of [forms.py] as it stands: its result is a
    [float], also when the division is exact. *)
Definition answers (f : qform) : number :=
  PFloat
    (Z.of_nat
       (length (filter (λ k, String.prefix (prefix f +:+ "-answer_") k = true)
                  (data_keys f))))
    (Z.of_nat answer_widget_values_len).

Definition answers_count : M number := λ f, (Ok (answers f), f).

(** A computation that does not touch the form. *)
Definition lift {A} (r : result A) : M A := λ f, (r, f).

Definition INVALID_CHAR_MSG : string := "% is not a valid character.".

(** [_clean_answer]: the key used for the duplicate check and the cleaned
    field value. *)
Definition _clean_answer (answer : value) : M (option string * value) :=
  match json_loads answer with
  | Raise e => raise e
  | Ok [] => raise IndexError
  | Ok (None :: _) => raise TypeError
  | Ok (Some a0 :: rest) =>
      if contains "%" a0 then raise (ValidationError INVALID_CHAR_MSG)
      else if negb (truthy a0) then
        _ ← store_error "answer_0" "This field is required.";
        mret (None, VJson [])
      else mret (Some (strip a0), VJson (Some (strip a0) :: rest))
  end.

(** ["answer_%d" % ans] *)
Definition answer_key (ans : nat) : string := "answer_" +:+ pretty ans.

(** The loop of [clean] over the numbers that [range(answers)] gives. *)
Fixpoint clean_answers (indices : list nat)
    (candidates_list : list (option string)) : M (list (option string)) :=
  match indices with
  | [] => mret candidates_list
  | ans :: rest =>
      let field_key := answer_key ans in
      answer ← item field_key;
      kc ← _clean_answer answer;
      _ ← store field_key kc.2;
      clean_answers rest (candidates_list ++ [kc.1])
  end.

Definition clean : M (gmap string value) :=
  answers ← answers_count;
  indices ← lift (range answers);
  candidates_list ← clean_answers indices [];
  if len_set candidates_list <? length candidates_list
  then raise (ValidationError "No duplicate choices allowed")
  else
    _ ← store "droop_quota" (VBool true);
    cleaned_data.

Definition positive_message : string := "Value must be a positve integer".

Definition clean_eligibles : M Z :=
  eligibles ← get "eligibles";
  match int_of eligibles with
  | Ok eligibles =>
      if (0 <? eligibles)%Z then mret eligibles
      else raise (ValidationError positive_message)
  | Raise ValueError => raise (ValidationError positive_message)
  | Raise e => raise e
  end.

Definition clean_department_limit : M Z :=
  dep_limit ← get "department_limit";
  has_limit ← get "has_department_limit";
  if truth has_limit then
    if negb (truth dep_limit) then raise (ValidationError positive_message)
    else
      match int_of dep_limit with
      | Ok dep_limit =>
          if (0 <? dep_limit)%Z then mret dep_limit
          else raise (ValidationError positive_message)
      | Raise ValueError => raise (ValidationError positive_message)
      | Raise e => raise e
      end
  else mret 0%Z.

End StvForm.

Module UniCouncilsGrForm.

Import StvForm.

Definition clean : M (gmap string value) :=
  _ ← StvForm.clean;
  _ ← store "droop_quota" (VBool false);
  cleaned_data.

End UniCouncilsGrForm.

(** ** The quota calculator *)

Module QuotaCalculator.

Inductive quota_error : Type :=
| EmptyElectorateError
| InsufficientCandidatesError.

Record Candidate : Type := Register {
  id : Z;
  display_name : string;
  constituency : option string
}.

(** Modelled from the spec: the counting engine (the module
    [zeus.stv_count_reports] and the count it drives) is not among the
    sources; [compute valid_ballot_count seats policy] is written from
    section 4.3, with the candidate registry it consults as a further
    argument.  The Droop quota is the floor of the ballots over the seats
    plus one, plus one; the simple quota is the ceiling of the ballots over
    the seats. *)
Definition compute (registry : list Candidate) (valid_ballot_count seats : Z)
    (policy : bool) : quota_error + Z :=
  if (valid_ballot_count =? 0)%Z then inl EmptyElectorateError
  else if (Z.of_nat (length registry) <? seats)%Z
  then inl InsufficientCandidatesError
  else if policy then inr (valid_ballot_count `div` (seats + 1) + 1)%Z
  else inr (- ((- valid_ballot_count) `div` seats))%Z.

End QuotaCalculator.

(** ** Sample submissions *)

Module Examples.

Definition two_candidates : list string := ["A B C:S"; "D E F:T"].

(** Second candidate first, then the first one. *)
Definition full_ballot : gmap string string :=
  <["choice_1" := "1"]> (<["choice_2" := "0"]> ∅).

(** The same candidate in both positions. *)
Definition twice_ballot : gmap string string :=
  <["choice_1" := "1"]> (<["choice_2" := "1"]> ∅).

(** Nothing first, then a candidate. *)
Definition gap_ballot : gmap string string :=
  <["choice_1" := ""]> (<["choice_2" := "1"]> ∅).

(** A value that is not the index of a candidate. *)
Definition unknown_ballot : gmap string string :=
  <["choice_1" := "7"]> ∅.

(** Only a first preference. *)
Definition short_ballot : gmap string string :=
  <["choice_1" := "0"]> ∅.

(** A valid election form with two candidates, one seat, no limit and
    three ballots. *)
Definition election : STVElectionForm.cleaned :=
  STVElectionForm.Cleaned "Board" "25/01/2015 07:00" "25/01/2015 19:00"
    "University" ["A, B, C, S"; "D, E, F, T"] "1" None "3".

(** The same election form with the first candidate entered twice. *)
Definition election_twice : STVElectionForm.cleaned :=
  STVElectionForm.Cleaned "Board" "25/01/2015 07:00" "25/01/2015 19:00"
    "University" ["A, B, C, S"; "A, B, C, S"] "1" None "3".

(** A question form with two candidates of the same name, and one with
    two different candidates. *)
Definition question_twice : StvForm.qform :=
  StvForm.QForm "form-0"
    ["form-0-eligibles"; "form-0-answer_0_0"; "form-0-answer_0_1";
     "form-0-answer_1_0"; "form-0-answer_1_1"]
    (<["eligibles" := VInt 1]>
       (<["answer_0" := VJson [Some "Ann"; Some "Law"]]>
          (<["answer_1" := VJson [Some " Ann "; Some "Arts"]]> ∅)))
    ∅.

Definition question_two : StvForm.qform :=
  StvForm.QForm "form-0"
    ["form-0-eligibles"; "form-0-answer_0_0"; "form-0-answer_0_1";
     "form-0-answer_1_0"; "form-0-answer_1_1"]
    (<["eligibles" := VStr "2"]>
       (<["has_department_limit" := VBool true]>
          (<["department_limit" := VStr "1"]>
             (<["answer_0" := VJson [Some "Ann"; Some "Law"]]>
                (<["answer_1" := VJson [Some "Bob"; Some "Arts"]]> ∅)))))
    ∅.

(** The text of a candidate list whose two lines are the same. *)
Definition candidates_twice : string :=
  "A, B, C, S" +:+ String "010" "A, B, C, S".

(** Three ballots, the second one without any choice. *)
Definition three_ballots : Site.formset :=
  [(true, full_ballot); (true, ∅); (true, short_ballot)].

End Examples.

(** ** Notions used to describe the election data *)

Module ElectionData.

Import STVElectionForm.

(** One part of a candidate as [get_candidates] normalises it: stripped,
    with its spaces turned into dashes. *)
Definition dashed (x : string) : string := replace " " "-" (strip x).

(** The text [get_candidates] gives for a candidate of four parts. *)
Definition formatted (a b c d : string) : string :=
  dashed a +:+ " " +:+ dashed b +:+ " " +:+ dashed c +:+ ":" +:+ dashed d.

(** The entry [e] is in the list of candidates of [school]. *)
Definition filed (m : gmap string (list candidate_entry)) (school : string)
    (e : candidate_entry) : Prop :=
  ∃ es, m !! school = Some es ∧ e ∈ es.

(** The identifiers in every list of candidates grow strictly and stay
    below [bound]. *)
Definition ids_sorted (bound : nat)
    (m : gmap string (list candidate_entry)) : Prop :=
  ∀ s es, m !! s = Some es →
    StronglySorted lt (candidateTmpId <$> es) ∧
    Forall (λ e, candidateTmpId e < bound) es.

End ElectionData.

(** ** Further sample submissions *)

Module Samples.

(** An election form whose second candidate has a colon in the surname. *)
Definition election_colon : STVElectionForm.cleaned :=
  STVElectionForm.Cleaned "Board" "25/01/2015 07:00" "25/01/2015 19:00"
    "University" ["A, B, C, S"; "D, E:e, F, T"] "1" None "3".

End Samples.

(** ** [QuestionBaseForm] and [QuestionForm] *)

Module QuestionForm.

(** [s.replace(ab, xy)] for two-character strings [ab] and [xy]: the
    occurrences are replaced from left to right, without overlap. *)
Fixpoint replace2 (a b x y : ascii) (s : string) : string :=
  match s with
  | EmptyString => EmptyString
  | String c r =>
      match r with
      | String d r' =>
          if bool_decide (c = a) && bool_decide (d = b)
          then String x (String y (replace2 a b x y r'))
          else String c (replace2 a b x y r)
      | EmptyString => String c EmptyString
      end
  end.

(** [ab in s] for a two-character string [ab]. *)
Fixpoint occurs2 (a b : ascii) (s : string) : bool :=
  match s with
  | EmptyString => false
  | String c r =>
      match r with
      | String d _ =>
          (bool_decide (c = a) && bool_decide (d = b)) || occurs2 a b r
      | EmptyString => false
      end
  end.

(** [clean_question]: [q] is [cleaned_data.get("question", "")]; the
    colon followed by a space becomes a colon followed by a tab. *)
Definition clean_question (question : option string) : result string :=
  let q := default "" question in
  if contains "%" q
  then Raise (ValidationError "% is not a valid character.")
  else Ok (replace2 ":" " " ":" "009" q).

(** The cleaned data of a question form, in the order in which the
    dictionary is iterated.  Every value of this form is a text: the
    choice fields and the answers alike. *)
Definition cdict : Type := list (string * string).

(** [cleaned_data.get(key)] *)
Fixpoint dget (key : string) (cd : cdict) : option string :=
  match cd with
  | [] => None
  | (k, v) :: rest => if bool_decide (k = key) then Some v else dget key rest
  end.

(** [int(cleaned_data.get(key))]: [None] is no number. *)
Definition int_get (key : string) (cd : cdict) : result Z :=
  match dget key cd with
  | None => Raise TypeError
  | Some s => match int s with Some n => Ok n | None => Raise ValueError end
  end.

(** The loop of [clean] over the keys of the cleaned data. *)
Fixpoint answers_loop (cd : cdict) (answer_list : list string)
    : result (list string) :=
  match cd with
  | [] => Ok answer_list
  | (key, v) :: rest =>
      if String.prefix "answer_" key then
        if contains "%" v
        then Raise (ValidationError "% is not a valid character.")
        else answers_loop rest (answer_list ++ [v])
      else answers_loop rest answer_list
  end.

Definition clean (cd : cdict) : result cdict :=
  bind (int_get "max_answers" cd) (λ max_answers,
  bind (int_get "min_answers" cd) (λ min_answers,
    if (max_answers <? min_answers)%Z
    then Raise (ValidationError
                  "Max answers should be greater or equal to min answers")
    else
      bind (answers_loop cd []) (λ answer_list,
        if len_set answer_list <? length answer_list
        then Raise (ValidationError "No duplicate choices allowed")
        else Ok cd))).

(** The answers of the cleaned data, in the order of iteration. *)
Definition answers_of (cd : cdict) : list string :=
  snd <$> filter (λ kv, String.prefix "answer_" kv.1 = true) cd.

End QuestionForm.

(** ** [ElectionForm]: departments and voting dates *)

Module ElectionForm.

(** [sep.join(l)] *)
Fixpoint join (sep : string) (l : list string) : string :=
  match l with
  | [] => EmptyString
  | [x] => x
  | x :: r => x +:+ sep +:+ join sep r
  end.

(** The loop of [clean_departments] over the lines. *)
Fixpoint departments_loop (deps_arr : list string)
    (cleaned_deps : list string) : list string :=
  match deps_arr with
  | [] => cleaned_deps
  | item :: rest =>
      let item := strip item in
      let item := lstrip item in
      if truthy item then departments_loop rest (cleaned_deps ++ [item])
      else departments_loop rest cleaned_deps
  end.

Definition clean_departments (deps : string) : string :=
  let deps_arr := split "010" deps in
  let cleaned_deps := departments_loop deps_arr [] in
  join (String "010" EmptyString) cleaned_deps.

(** [DEPARTMENT_CHOICES] of [StvForm.__init__], from the text of the
    departments of the election. *)
Definition DEPARTMENT_CHOICES (departments_data : string)
    : list (string * string) :=
  map (λ dep, (strip dep, strip dep)) (split "010" departments_data).

(** [clean_voting_dates]: dates are points of time, [now] is
    [datetime.now()]; comparing a date with [None] raises [TypeError]. *)
Definition clean_voting_dates (now : Z) (feature_edit_voting_ends_at : bool)
    (starts ends extension : option Z) : result unit :=
  bind
    (match starts, ends with
     | Some s, Some e =>
         if (e <? now)%Z && feature_edit_voting_ends_at
         then Raise (ValidationError "Invalid voting end date")
         else if (e <=? s)%Z
         then Raise (ValidationError "Invalid voting dates")
         else Ok ()
     | _, _ => Ok ()
     end)
    (λ _,
       match extension with
       | None => Ok ()
       | Some x =>
           match ends with
           | None => Raise TypeError
           | Some e =>
               if (x <=? e)%Z
               then Raise (ValidationError "Invalid voting extension date")
               else Ok ()
           end
       end).

End ElectionForm.

(** ** The date and time widget *)

Module JqSplitDateTimeWidget.

Record datetime : Type := DateTime {
  year : nat;
  month : nat;
  day : nat;
  hour : nat;
  minute : nat
}.

Inductive widget_value : Type :=
| WNone
| WTuple (l : list string)
| WDateTime (d : datetime).

(** ["%02d" % n] for a number below 100. *)
Definition pad2 (n : nat) : string :=
  if n <? 10 then "0" +:+ pretty n else pretty n.

(** ["%02d:%02d" % (t, m)] *)
Definition clock (t m : nat) : string := pad2 t +:+ ":" +:+ pad2 m.

(** The choices of the time of day: every quarter of an hour, and the
    last minute of the day. *)
Definition hour_selections : list (string * string) :=
  (t ← seq 0 24; m ← [0; 15; 30; 45]; [(clock t m, clock t m)])
  ++ [("23:59", "23:59")].

(** [strftime("%Y-%m-%d", timetuple)] for a year of four digits. *)
Definition date_text (d : datetime) : string :=
  pretty (year d) +:+ "-" +:+ pad2 (month d) +:+ "-" +:+ pad2 (day d).

Definition decompress (value : widget_value) : list (option string) :=
  match value with
  | WNone | WTuple [] => [None; None; None; None]
  | WTuple l => Some <$> take 2 l
  | WDateTime dt =>
      let d := date_text dt in
      let timeofday := clock (hour dt) (minute dt) in
      let timeofday :=
        if bool_decide (timeofday ∈ hour_selections.*1) then timeofday
        else pad2 (hour dt) +:+ ":00" in
      [Some d; Some timeofday]
  end.

End JqSplitDateTimeWidget.

(** ** The demo accounts of the site *)

Module Demo.

(** The module-level dictionaries [_demo_addresses] and
    [_demo_emails_per_address]; a missing key stands for the default value
    ([0], the empty set). *)
Record state : Type := State {
  demo_addresses : gmap string Z;
  demo_emails_per_address : gmap string (gset string)
}.

(** What [demo] reads from the request and from its collaborators:
    [email_is_valid(email)], [resolve_ip(request)], [int(time())] and the
    user that [_get_demo_user] returns, if any.  Rendering and sending the
    mail are taken to succeed. *)
Record request : Type := Request {
  is_post : bool;
  email_address : string;
  email_is_valid : bool;
  client_address : option string;
  now_seconds : Z;
  demo_user : option string
}.

Inductive response : Type :=
| NotAllowed
| InvalidEmail
| AddressUnavailable
| TooManyRequests
| TooManyEmails
| CannotCreate
| Sent (user_id : string).

Record settings : Type := Settings {
  DEMO_SUBMIT_INTERVAL_SECONDS : Z;
  DEMO_EMAILS_PER_IP : nat
}.

Definition last_seconds (st : state) (address : string) : Z :=
  default 0%Z (demo_addresses st !! address).

Definition emails_of (st : state) (address : string) : gset string :=
  default ∅ (demo_emails_per_address st !! address).

Definition demo (cfg : settings) (st : state) (req : request)
    : response * state :=
  if negb (is_post req) then (NotAllowed, st)
  else if negb (email_is_valid req) then (InvalidEmail, st)
  else
    match client_address req with
    | None | Some EmptyString => (AddressUnavailable, st)
    | Some address =>
        if (now_seconds req - last_seconds st address
            <? DEMO_SUBMIT_INTERVAL_SECONDS cfg)%Z
        then (TooManyRequests, st)
        else
          let emails := emails_of st address in
          if bool_decide (email_address req ∉ emails)
             && (DEMO_EMAILS_PER_IP cfg <=? size emails)
          then (TooManyEmails, st)
          else
            match demo_user req with
            | None => (CannotCreate, st)
            | Some user_id =>
                (Sent user_id,
                 State (<[address := now_seconds req]> (demo_addresses st))
                   (<[address := {[email_address req]} ∪ emails]>
                      (demo_emails_per_address st)))
            end
    end.

(** The requests served one after the other. *)
Fixpoint serve (cfg : settings) (st : state) (reqs : list request) : state :=
  match reqs with
  | [] => st
  | req :: rest => serve cfg (demo cfg st req).2 rest
  end.

Definition initial : state := State ∅ ∅.

(** The responses to the requests served one after the other. *)
Fixpoint responses (cfg : settings) (st : state) (reqs : list request)
    : list response :=
  match reqs with
  | [] => []
  | req :: rest =>
      (demo cfg st req).1 :: responses cfg (demo cfg st req).2 rest
  end.

End Demo.

(** ** Sample data of the further forms and views *)

Module Cases.

(** An [StvForm] bound to a submission that gives the eligibles count
    only, as it is when [clean] is called: the fields were cleaned in
    their order, the check boxes left out are [False], the limit is zero
    and the two default answers, which are required, have failed. *)
Definition question_no_answers : StvForm.qform :=
  StvForm.QForm "form-0" ["form-0-eligibles"]
    (<["eligibles" := VInt 2]>
       (<["has_department_limit" := VBool false]>
          (<["department_limit" := VInt 0]>
             (<["droop_quota" := VBool false]> ∅))))
    (<["answer_0" := ["This field is required."]]>
       (<["answer_1" := ["This field is required."]]> ∅)).

(** The cleaned data of a question form with two answers. *)
Definition question_cleaned : QuestionForm.cdict :=
  [("choice_type", "choice"); ("question", "Who?");
   ("answer_0", "Ann"); ("answer_1", "Bob");
   ("min_answers", "1"); ("max_answers", "2")].

(** Seven minutes past noon. *)
Definition past_noon : JqSplitDateTimeWidget.datetime :=
  JqSplitDateTimeWidget.DateTime 2015 1 25 12 7.

Definition demo_settings : Demo.settings := Demo.Settings 60 2.

(** A valid request for a demo account, posted from one client address. *)
Definition demo_request (email : string) (now : Z) : Demo.request :=
  Demo.Request true email true (Some "10.0.0.1") now (Some "demo1").

(** Three requests: the second comes thirty seconds after the first. *)
Definition demo_requests : list Demo.request :=
  [demo_request "ann@example.org" 1420000000;
   demo_request "bob@example.org" 1420000030;
   demo_request "bob@example.org" 1420000100].

End Cases.

(** ** [ScoresForm] *)

Module ScoresForm.

Import QuestionForm.

(** The cleaned data of a scores form: the entry of [scores], a list of
    the chosen scores, when the field validated, and the other entries,
    all texts, in the order of iteration. *)
Record cleaned : Type := Cleaned {
  scores : option (list string);
  texts : cdict
}.

(** [int(cleaned_data.get(key, 0))] *)
Definition int_get (key : string) (cd : cdict) : result Z :=
  match dget key cd with
  | None => Ok 0%Z
  | Some s => match int s with Some n => Ok n | None => Raise ValueError end
  end.

Definition clean (c : cleaned) : result cleaned :=
  bind (int_get "max_answers" (texts c)) (λ max_answers,
  bind (int_get "min_answers" (texts c)) (λ min_answers,
    if (negb (min_answers =? 0)%Z && negb (max_answers =? 0)%Z)
       && (max_answers <? min_answers)%Z
    then Raise (ValidationError
                  "Max answers should be greater or equal to min answers")
    else
      bind (answers_loop (texts c) []) (λ answer_list,
        if len_set answer_list <? length answer_list
        then Raise (ValidationError "No duplicate choices allowed")
        else if bool_decide (is_Some (scores c))
                && (Z.of_nat (length answer_list) <? max_answers)%Z
        then Raise (ValidationError
               "Number of answers must be equal or bigger than max answers")
        else Ok c))).

End ScoresForm.

(** * Properties *)

(** ** Python helpers *)

Lemma truthy_false s : truthy s = false ↔ s = "".
Proof. destruct s; simpl; split; congruence. Qed.

Lemma truthy_true s : truthy s = true ↔ s ≠ "".
Proof. destruct s; simpl; split; congruence. Qed.

Section len_set.
Context `{Countable A}.
Implicit Types l : list A.

Lemma len_set_cons_in x l : x ∈ l → len_set (x :: l) = len_set l.
Proof.
  intros Hx. unfold len_set. f_equal.
  rewrite list_to_set_cons. apply set_eq. intros y.
  rewrite elem_of_union, elem_of_singleton, elem_of_list_to_set.
  split; [by intros [->|?]|by right].
Qed.

Lemma len_set_cons_notin x l : x ∉ l → len_set (x :: l) = S (len_set l).
Proof.
  intros Hx. unfold len_set. rewrite list_to_set_cons, size_union.
  - by rewrite size_singleton.
  - intros y. rewrite elem_of_singleton, elem_of_list_to_set. by intros ->.
Qed.

Lemma len_set_le l : len_set l ≤ length l.
Proof.
  induction l as [|x l IH]; [done|].
  destruct (decide (x ∈ l)).
  - rewrite len_set_cons_in by done. simpl. lia.
  - rewrite len_set_cons_notin by done. simpl. lia.
Qed.

Lemma len_set_NoDup l : len_set l = length l ↔ NoDup l.
Proof.
  induction l as [|x l IH]; [split; [constructor|done]|].
  rewrite NoDup_cons. destruct (decide (x ∈ l)) as [Hx|Hx].
  - rewrite len_set_cons_in by done. pose proof (len_set_le l). simpl.
    split; [lia|]. by intros [? _].
  - rewrite len_set_cons_notin by done. simpl.
    split; [intros ?; split; [done|]; apply IH; lia|].
    intros [_ ?]. f_equal. by apply IH.
Qed.

Lemma len_set_dup l i j x :
  i ≠ j → l !! i = Some x → l !! j = Some x → len_set l < length l.
Proof.
  intros Hij Hi Hj. pose proof (len_set_le l).
  destruct (decide (len_set l = length l)) as [Heq|]; [|lia].
  apply len_set_NoDup in Heq. destruct Hij.
  by eapply NoDup_lookup.
Qed.

End len_set.

(** ** The ballot form *)

Section ballot_form.
Import STVBallotForm.
Implicit Types (candidates cands : list string) (cd data : gmap string string).

Lemma choice_key_inj i j : choice_key i = choice_key j → i = j.
Proof.
  unfold choice_key. intros Heq.
  cbv [String.append] in Heq.
  assert (pretty (i + 1) = pretty (j + 1)) as Hp by congruence.
  apply (inj pretty) in Hp. lia.
Qed.

Lemma fields_seq candidates :
  fields candidates = choice_key <$> seq 0 (length candidates).
Proof. unfold fields. apply imap_seq_0. Qed.

Lemma elem_of_fields candidates k :
  k ∈ fields candidates ↔ ∃ i, i < length candidates ∧ k = choice_key i.
Proof.
  rewrite fields_seq, list_elem_of_fmap. split.
  - intros (i & -> & Hi). apply elem_of_seq in Hi. exists i. split; [lia|done].
  - intros (i & Hi & ->). exists i. split; [done|]. apply elem_of_seq. lia.
Qed.

Lemma valid_value_choices candidates v :
  valid_value (choices candidates) v = true ↔
  v = "" ∨ ∃ k c, candidates !! k = Some c ∧ v = pretty k.
Proof.
  unfold valid_value, choices. simpl.
  rewrite orb_true_iff, bool_decide_eq_true, existsb_exists. split.
  - intros [->|([k' c] & Hin & Hk)]; [by left|right].
    apply list_elem_of_In, elem_of_lookup_imap in Hin as (k & c' & Heq & Hc).
    apply bool_decide_eq_true in Hk. simplify_eq/=. eauto.
  - intros [->|(k & c & Hc & ->)]; [by left|right].
    exists (pretty k, c). split; [|by apply bool_decide_eq_true].
    apply list_elem_of_In. by apply (elem_of_lookup_imap_2 (λ i c, (pretty i, c))).
Qed.

Lemma ChoiceField_clean_Ok chs o v :
  ChoiceField_clean chs o = Ok v ↔
  v = default "" o ∧ (v = "" ∨ valid_value chs v = true).
Proof.
  unfold ChoiceField_clean. set (s := default "" o).
  destruct (truthy s) eqn:Ht; simpl.
  - destruct (valid_value chs s) eqn:Hv; simpl.
    + split; [intros [= <-]; auto|intros [-> _]; done].
    + split; [done|]. intros [-> [He|?]]; [|congruence].
      apply truthy_true in Ht. done.
  - apply truthy_false in Ht.
    split; [intros [= <-]; auto|intros [-> _]; done].
Qed.

Lemma clean_fields_lookup chs data names f k :
  cleaned_data (clean_fields chs data names f) !! k =
  if decide (k ∈ names)
  then match ChoiceField_clean chs (data !! k) with
       | Ok v => Some v
       | Raise _ => None
       end
  else cleaned_data f !! k.
Proof.
  revert f. induction names as [|name rest IH]; intros f; cbn [clean_fields].
  { destruct (decide (k ∈ [])) as [Hk|]; [|done]. by apply not_elem_of_nil in Hk. }
  rewrite IH. destruct (decide (k ∈ rest)) as [Hin|Hnin].
  { destruct (decide (k ∈ name :: rest)) as [|[]]; [done|by right]. }
  destruct (decide (k = name)) as [->|Hne].
  - destruct (decide (name ∈ name :: rest)) as [|[]]; [|by left].
    destruct (ChoiceField_clean chs (data !! name)); simpl.
    + by rewrite lookup_insert_eq.
    + by rewrite lookup_delete_eq.
  - destruct (decide (k ∈ name :: rest)) as [[->|?]%elem_of_cons|]; [done..|].
    destruct (ChoiceField_clean chs (data !! name)); simpl.
    + by rewrite lookup_insert_ne.
    + by rewrite lookup_delete_ne.
Qed.

Lemma clean_fields_errors chs data names f :
  errors (clean_fields chs data names f) = [] →
  errors f = [] ∧
  ∀ k, k ∈ names → ∃ v, ChoiceField_clean chs (data !! k) = Ok v.
Proof.
  revert f. induction names as [|name rest IH]; intros f; simpl.
  { intros ?. split; [done|]. intros k Hk. by apply not_elem_of_nil in Hk. }
  intros Herr. apply IH in Herr as [Hf Hrest].
  destruct (ChoiceField_clean chs (data !! name)) as [v|e] eqn:Hc; simpl in Hf.
  - split; [done|]. intros k [->|Hk]%elem_of_cons; eauto.
  - by destruct (errors f).
Qed.

Lemma clean_fields_no_errors chs data names f :
  errors f = [] →
  (∀ k, k ∈ names → ∃ v, ChoiceField_clean chs (data !! k) = Ok v) →
  errors (clean_fields chs data names f) = [].
Proof.
  revert f. induction names as [|name rest IH]; intros f Hf Hall; simpl; [done|].
  destruct (Hall name) as [v Hv]; [by left|]. rewrite Hv.
  apply IH; [done|]. intros k Hk. apply Hall. by right.
Qed.

(** The loops only read the values [get_val cd i] of the enumerated
    positions. *)

Lemma get_choices_loop_spec cd i cands acc :
  ∃ k, k ≤ length cands ∧
    get_choices_loop cd i cands acc =
      acc ++ ((λ j, Preference (j + 1) (get_val cd j)) <$> seq i k) ∧
    (∀ j, i ≤ j < i + k → get_val cd j ≠ "") ∧
    (k < length cands → get_val cd (i + k) = "").
Proof.
  revert i acc. induction cands as [|c rest IH]; intros i acc; simpl.
  { exists 0. simpl. rewrite app_nil_r. repeat split; lia. }
  destruct (truthy (get_val cd i)) eqn:Ht; simpl.
  - destruct (IH (S i) (acc ++ [Preference (i + 1) (get_val cd i)]))
      as (k & Hk & Heq & Hne & Hend).
    exists (S k). split; [lia|]. split; [|split].
    + rewrite Heq. simpl. by rewrite <- app_assoc.
    + intros j Hj. destruct (decide (j = i)) as [->|].
      * by apply truthy_true.
      * apply Hne. lia.
    + intros Hlt. replace (i + S k) with (S i + k) by lia. apply Hend. lia.
  - exists 0. simpl. rewrite app_nil_r. split; [lia|]. split; [done|].
    split; [lia|]. intros _. rewrite Nat.add_0_r. by apply truthy_false.
Qed.

Lemma clean_loop_Ok cd i cands empty chosen r :
  clean_loop cd i cands empty chosen = Ok r →
  r = chosen ++ filter (λ s, s ≠ "") (get_val cd <$> seq i (length cands)) ∧
  (empty = true → ∀ j, i ≤ j < i + length cands → get_val cd j = "") ∧
  (∀ j1 j2, i ≤ j1 < j2 → j2 < i + length cands →
     get_val cd j1 = "" → get_val cd j2 = "").
Proof.
  revert i empty chosen.
  induction cands as [|c rest IH]; intros i empty chosen; simpl.
  { intros [= <-]. rewrite app_nil_r. repeat split; intros; lia. }
  case_bool_decide as Hv.
  - rewrite Hv. simpl. intros (-> & Hall & Hgap)%IH.
    specialize (Hall eq_refl).
    rewrite filter_cons_False by (intros ?; done).
    split; [done|]. split.
    + intros _ j Hj. destruct (decide (j = i)) as [->|]; [done|].
      apply Hall. lia.
    + intros j1 j2 H1 H2 _. apply Hall. lia.
  - assert (truthy (get_val cd i) = true) as Ht by by apply truthy_true.
    rewrite Ht. destruct empty; simpl; [done|].
    intros (-> & _ & Hgap)%IH.
    rewrite filter_cons_True by done. rewrite <- app_assoc. simpl.
    split; [done|]. split; [done|].
    intros j1 j2 H1 H2 Hj1. destruct (decide (j1 = i)) as [->|]; [done|].
    apply (Hgap j1 j2); [lia|lia|done].
Qed.

Lemma clean_loop_Raise cd i cands empty chosen e :
  clean_loop cd i cands empty chosen = Raise e →
  e = ValidationError "Invalid ballot".
Proof.
  revert i empty chosen.
  induction cands as [|c rest IH]; intros i empty chosen; simpl; [done|].
  destruct (truthy (get_val cd i) && _); [by intros [= <-]|apply IH].
Qed.

Lemma clean_loop_all_empty cd i cands empty chosen :
  (∀ j, i ≤ j < i + length cands → get_val cd j = "") →
  clean_loop cd i cands empty chosen = Ok chosen.
Proof.
  revert i empty. induction cands as [|c rest IH]; intros i empty Hall; simpl.
  { done. }
  rewrite (Hall i) by (simpl; lia). simpl.
  apply IH. intros j Hj. apply Hall. simpl. lia.
Qed.

End ballot_form.

Section ballot_validation.
Import STVBallotForm.
Implicit Types (candidates : list string) (data : gmap string string).

Lemma has_changed_false candidates data i :
  has_changed candidates data = false → i < length candidates →
  submitted data i = "".
Proof.
  intros Hch Hi. apply truthy_false.
  destruct (truthy (submitted data i)) eqn:Ht; [|done].
  rewrite <- Hch. symmetry. unfold has_changed. apply existsb_exists.
  exists (choice_key i). split; [|done].
  apply list_elem_of_In, elem_of_fields. eauto.
Qed.

Lemma clean_Ok candidates cd cd' :
  clean candidates cd = Ok cd' →
  cd' = cd ∧ ∃ chosen, clean_loop cd 0 candidates false [] = Ok chosen ∧
                       len_set chosen = length chosen.
Proof.
  unfold clean. destruct (clean_loop cd 0 candidates false []) as [chosen|];
    [|done].
  case_bool_decide as Hlen; [done|]. intros [= <-]. split; [done|].
  by exists chosen.
Qed.

(** What validation establishes: the cleaned values are the submitted ones,
    every non-empty one is the index of a candidate, and the checks of
    [clean] hold of them. *)
Lemma full_clean_valid candidates ep data :
  let f := full_clean candidates ep data in
  is_valid f = true →
  (∀ i, i < length candidates → get_val (cleaned_data f) i = submitted data i) ∧
  (∀ i, i < length candidates → submitted data i ≠ "" →
     ∃ k c, candidates !! k = Some c ∧ submitted data i = pretty k) ∧
  ∃ chosen, clean_loop (cleaned_data f) 0 candidates false [] = Ok chosen ∧
            len_set chosen = length chosen.
Proof.
  unfold full_clean.
  destruct (ep && negb (has_changed candidates data)) eqn:Hskip; cbn zeta.
  - apply andb_true_iff in Hskip as [_ Hch%negb_true_iff]. intros _.
    assert (∀ j, get_val (∅ : gmap string string) j = "") as Hempty.
    { intros j. unfold get_val. by rewrite lookup_empty. }
    split; [|split].
    + intros i Hi. simpl. rewrite Hempty. symmetry.
      by apply (has_changed_false candidates).
    + intros i Hi Hne. destruct Hne. by apply (has_changed_false candidates).
    + exists []. split; [|done]. apply clean_loop_all_empty. intros; apply Hempty.
  - unfold clean_form.
    set (f1 := clean_fields (choices candidates) data (fields candidates) (Form ∅ [])).
    destruct (clean candidates (cleaned_data f1)) as [cd'|e] eqn:Hclean.
    + unfold is_valid. simpl. intros Hv.
      destruct (errors f1) eqn:Herr; [|done].
      apply clean_Ok in Hclean as [-> Hloop].
      apply clean_fields_errors in Herr as [_ Hall].
      assert (∀ i, i < length candidates →
                get_val (cleaned_data f1) i = submitted data i ∧
                (submitted data i = "" ∨
                 valid_value (choices candidates) (submitted data i) = true))
        as Hfield.
      { intros i Hi. destruct (Hall (choice_key i)) as [v Hv'].
        { apply elem_of_fields. eauto. }
        unfold get_val, f1. rewrite clean_fields_lookup.
        destruct (decide (choice_key i ∈ fields candidates)) as [|[]];
          [|apply elem_of_fields; eauto].
        rewrite Hv'. apply ChoiceField_clean_Ok in Hv' as [-> Hok]. done. }
      split; [|split; [|done]].
      * intros i Hi. by apply Hfield.
      * intros i Hi Hne. destruct (Hfield i Hi) as [_ [?|Hvalid]]; [done|].
        apply valid_value_choices in Hvalid as [?|?]; done.
    + unfold is_valid. simpl. by destruct (errors f1).
Qed.

End ballot_validation.

(** Conversely, validation accepts every submission whose non-empty choices
    are indices of candidates, come first and are pairwise different. *)

Section ballot_acceptance.
Import STVBallotForm.
Implicit Types (candidates cands : list string) (cd data : gmap string string).

Lemma filter_all_empty cd i n :
  (∀ j, i ≤ j < i + n → get_val cd j = "") →
  filter (λ s, s ≠ "") (get_val cd <$> seq i n) = [].
Proof.
  revert i. induction n as [|n IH]; intros i Hall; simpl; [done|].
  rewrite filter_cons_False by (intros Hne; apply Hne, Hall; lia).
  apply IH. intros j Hj. apply Hall. lia.
Qed.

Lemma clean_loop_no_gap cd i cands chosen :
  (∀ j1 j2, i ≤ j1 < j2 → j2 < i + length cands →
     get_val cd j1 = "" → get_val cd j2 = "") →
  clean_loop cd i cands false chosen =
    Ok (chosen ++ filter (λ s, s ≠ "") (get_val cd <$> seq i (length cands))).
Proof.
  revert i chosen. induction cands as [|c rest IH]; intros i chosen Hgap.
  { simpl. by rewrite app_nil_r. }
  cbn [clean_loop length seq fmap list_fmap].
  destruct (decide (get_val cd i = "")) as [He|Hne].
  - assert (∀ j, S i ≤ j < S i + length rest → get_val cd j = "") as Hall.
    { intros j Hj. apply (Hgap i j); [lia|simpl; lia|done]. }
    rewrite He. simpl. rewrite clean_loop_all_empty by done.
    rewrite filter_cons_False by (intros ?; done).
    rewrite filter_all_empty by done. by rewrite app_nil_r.
  - rewrite bool_decide_eq_false_2 by done.
    assert (truthy (get_val cd i) = true) as -> by by apply truthy_true.
    simpl. rewrite IH.
    + rewrite filter_cons_True by done. by rewrite <- app_assoc.
    + intros j1 j2 H1 H2. apply Hgap; [lia|simpl; lia].
Qed.

Lemma full_clean_accepts candidates ep data :
  (∀ i, i < length candidates →
     submitted data i = "" ∨
     ∃ k c, candidates !! k = Some c ∧ submitted data i = pretty k) →
  (∀ i j, i < j → j < length candidates →
     submitted data i = "" → submitted data j = "") →
  NoDup (filter (λ s, s ≠ "")
           (submitted data <$> seq 0 (length candidates))) →
  is_valid (full_clean candidates ep data) = true.
Proof.
  intros Hreg Hgap Hnd. unfold full_clean.
  destruct (ep && negb (has_changed candidates data)); cbn zeta; [done|].
  set (f1 := clean_fields (choices candidates) data (fields candidates)
               (Form ∅ [])).
  assert (∀ i, i < length candidates →
            ChoiceField_clean (choices candidates) (data !! choice_key i)
            = Ok (submitted data i)) as Hfields.
  { intros i Hi. apply ChoiceField_clean_Ok. split; [done|].
    destruct (Hreg i Hi) as [?|?]; [by left|right].
    apply valid_value_choices. by right. }
  assert (errors f1 = []) as Herr.
  { apply clean_fields_no_errors; [done|].
    intros k (i & Hi & ->)%elem_of_fields. eauto. }
  assert (∀ i, i < length candidates →
            get_val (cleaned_data f1) i = submitted data i) as Hval.
  { intros i Hi. unfold get_val, f1. rewrite clean_fields_lookup.
    destruct (decide (choice_key i ∈ fields candidates)) as [|[]];
      [|apply elem_of_fields; eauto].
    by rewrite Hfields. }
  assert (get_val (cleaned_data f1) <$> seq 0 (length candidates)
          = submitted data <$> seq 0 (length candidates)) as Hvals.
  { apply list_fmap_ext. intros n i [-> Hn]%lookup_seq. by apply Hval. }
  assert (clean candidates (cleaned_data f1) = Ok (cleaned_data f1)) as Hclean.
  { unfold clean. rewrite clean_loop_no_gap.
    - rewrite app_nil_l, Hvals.
      apply len_set_NoDup in Hnd. rewrite Hnd.
      by rewrite bool_decide_eq_false_2 by (intros Hne; by apply Hne).
    - intros j1 j2 H1 H2. rewrite !Hval by lia. apply Hgap; lia. }
  unfold clean_form. rewrite Hclean. unfold is_valid. simpl. by rewrite Herr.
Qed.

End ballot_acceptance.

Section ballot_claims.
Import STVBallotForm.
Implicit Types (candidates : list string) (data : gmap string string).

Lemma rank_fmap_seq (val : nat → string) i k :
  rank <$> ((λ j, Preference (j + 1) (val j)) <$> seq i k) = seq (i + 1) k.
Proof.
  rewrite <- list_fmap_compose. revert i. induction k as [|k IH]; intros i; simpl.
  - done.
  - f_equal. apply (IH (S i)).
Qed.

Lemma valid_no_gap candidates ep data :
  is_valid (full_clean candidates ep data) = true →
  ∀ i j, i < j → j < length candidates →
    submitted data i = "" → submitted data j = "".
Proof.
  intros (Hval & _ & chosen & Hloop & _)%full_clean_valid i j Hij Hj Hi.
  apply clean_loop_Ok in Hloop as (_ & _ & Hgap).
  rewrite <- Hval by done. apply (Hgap i j); [lia|simpl; lia|].
  rewrite Hval by lia. done.
Qed.

Lemma valid_votes_lookup candidates ep data serial :
  is_valid (full_clean candidates ep data) = true →
  let v := get_choices candidates
             (cleaned_data (full_clean candidates ep data)) serial in
  rank <$> votes v = seq 1 (length (votes v)) ∧
  length (votes v) ≤ length candidates ∧
  ∀ i, i < length candidates →
    votes v !! i =
      if decide (submitted data i = "") then None
      else Some (Preference (i + 1) (submitted data i)).
Proof.
  intros Hvalid. pose proof (valid_no_gap _ _ _ Hvalid) as Hgap.
  apply full_clean_valid in Hvalid as (Hval & _ & _).
  set (cd := cleaned_data (full_clean candidates ep data)) in *.
  cbn zeta. unfold get_choices. cbn [votes].
  destruct (get_choices_loop_spec cd 0 candidates [])
    as (k & Hk & -> & Hne & Hend).
  rewrite app_nil_l, length_fmap, length_seq.
  split; [apply (rank_fmap_seq (get_val cd) 0 k)|].
  split; [done|]. intros i Hi.
  rewrite list_lookup_fmap. destruct (decide (i < k)) as [Hik|Hik].
  - rewrite lookup_seq_lt by done. simpl.
    specialize (Hne i). rewrite Hval in Hne by done.
    destruct (decide (submitted data i = "")) as [He|_]; [destruct Hne; [lia|done]|].
    by rewrite Hval.
  - rewrite lookup_seq_ge by lia. simpl.
    destruct (decide (submitted data i = "")) as [|[]]; [done|].
    assert (submitted data k = "") as Hk0.
    { rewrite <- Hval by lia. apply Hend. lia. }
    destruct (decide (i = k)) as [->|]; [done|].
    apply (Hgap k i); [lia|done|done].
Qed.

(** C3. For a ballot form that passes validation, the vote returned by
    [get_choices(serial)] carries the serial, its ranks are exactly
    1, 2, ..., k in ascending order, and position [i] of the vote holds the
    submitted choice of field [i + 1] with rank [i + 1] exactly when that
    choice is not empty, so the preferences are a contiguous prefix of the
    fields and no submitted choice is lost.  A submission in which a
    non-empty choice follows an empty one does not pass validation. *)
Theorem get_choices_contiguous candidates ep data serial :
  (is_valid (full_clean candidates ep data) = true →
     let v := get_choices candidates
                (cleaned_data (full_clean candidates ep data)) serial in
     ballotSerialNumber v = serial ∧
     rank <$> votes v = seq 1 (length (votes v)) ∧
     length (votes v) ≤ length candidates ∧
     ∀ i, i < length candidates →
       votes v !! i =
         if decide (submitted data i = "") then None
         else Some (Preference (i + 1) (submitted data i))) ∧
  (∀ i j, i < j → j < length candidates →
     submitted data i = "" → submitted data j ≠ "" →
     is_valid (full_clean candidates ep data) = false).
Proof.
  split.
  - intros Hvalid. split; [done|]. by apply valid_votes_lookup.
  - intros i j Hij Hj Hi Hne.
    destruct (is_valid (full_clean candidates ep data)) eqn:Hvalid; [|done].
    destruct Hne. by apply (valid_no_gap candidates ep data Hvalid i j).
Qed.

Lemma get_choices_contiguous_witness :
  rank <$> votes (get_choices Examples.two_candidates
             (cleaned_data (full_clean Examples.two_candidates true
                              Examples.full_ballot)) 1) = [1; 2] ∧
  is_valid (full_clean Examples.two_candidates true Examples.gap_ballot) = false.
Proof.
  split.
  - apply (proj1 (get_choices_contiguous Examples.two_candidates true
                    Examples.full_ballot 1)).
    vm_compute. reflexivity.
  - apply (proj2 (get_choices_contiguous Examples.two_candidates true
                    Examples.gap_ballot 1) 0 1).
    + lia.
    + simpl. lia.
    + vm_compute. reflexivity.
    + vm_compute. discriminate.
Defined.

End ballot_claims.

Section ballot_duplicates.
Import STVBallotForm.
Implicit Types (candidates : list string) (data : gmap string string).

Lemma pretty_N_go_nonempty (x : N) s : s ≠ "" → pretty_N_go x s ≠ "".
Proof.
  revert s. induction (N.lt_wf_0 x) as [x _ IH]; intros s Hs.
  destruct (decide (x = 0)%N) as [->|Hx].
  - by rewrite pretty_N_go_0.
  - rewrite pretty_N_go_step by lia. apply IH; [|done].
    apply N.div_lt; lia.
Qed.

Lemma pretty_nat_nonempty (k : nat) : pretty k ≠ "".
Proof.
  unfold pretty, pretty_nat, pretty, pretty_N.
  case_decide; [done|].
  rewrite pretty_N_go_step by lia. by apply pretty_N_go_nonempty.
Qed.

Lemma filter_twice {A} (P : A → Prop) `{∀ x, Decision (P x)} (l : list A) i j x :
  i < j → l !! i = Some x → l !! j = Some x → P x → ¬ NoDup (filter P l).
Proof.
  revert i j. induction l as [|a l IH]; intros i j Hij Hi Hj HP; [done|].
  destruct j as [|j]; [lia|]. destruct i as [|i]; simplify_eq/=.
  - rewrite filter_cons_True by done. rewrite NoDup_cons. intros [Hn _].
    apply Hn, list_elem_of_filter. split; [done|]. by eapply list_elem_of_lookup_2.
  - intros Hnd. apply (IH i j); [lia|done..|].
    rewrite filter_cons in Hnd. destruct (decide (P a)); [|done].
    by apply NoDup_cons in Hnd as [_ ?].
Qed.

Lemma cleaned_choice candidates data i k c :
  i < length candidates → candidates !! k = Some c →
  submitted data i = pretty k →
  get_val (cleaned_data (clean_fields (choices candidates) data
                           (fields candidates) (Form ∅ []))) i = pretty k.
Proof.
  intros Hi Hk Hs. unfold get_val. rewrite clean_fields_lookup.
  destruct (decide (choice_key i ∈ fields candidates)) as [|[]];
    [|apply elem_of_fields; eauto].
  assert (ChoiceField_clean (choices candidates) (data !! choice_key i)
          = Ok (pretty k)) as ->; [|done].
  apply ChoiceField_clean_Ok. split; [done|]. right.
  apply valid_value_choices. eauto.
Qed.

Lemma clean_twice candidates cd i j s :
  i < j → j < length candidates → s ≠ "" →
  get_val cd i = s → get_val cd j = s →
  clean candidates cd = Raise (ValidationError "Invalid ballot").
Proof.
  intros Hij Hj Hs Hi Hjs. unfold clean.
  destruct (clean_loop cd 0 candidates false []) as [chosen|e] eqn:Hloop.
  - apply clean_loop_Ok in Hloop as (-> & _ & _). rewrite app_nil_l.
    case_bool_decide as Hlen; [done|]. exfalso.
    assert (NoDup (filter (λ s, s ≠ "")
                     (get_val cd <$> seq 0 (length candidates)))) as Hnd.
    { apply len_set_NoDup. congruence. }
    revert Hnd. apply (filter_twice _ _ i j s); [done|..|done].
    + rewrite list_lookup_fmap, lookup_seq_lt by lia. simpl. by f_equal.
    + rewrite list_lookup_fmap, lookup_seq_lt by lia. simpl. by f_equal.
  - by apply clean_loop_Raise in Hloop as ->.
Qed.

End ballot_duplicates.

Section ballot_rejection.
Import STVBallotForm STVElectionForm.
Implicit Types (candidates : list string) (data : gmap string string).

Lemma invalid_form_no_election (cl : cleaned) (fs : Site.formset)
    candidates ep data :
  get_candidates cl = Ok candidates → (ep, data) ∈ fs →
  is_valid (full_clean candidates ep data) = false →
  ∀ el, Site.stv_count cl fs ≠ Ok (Some el).
Proof.
  intros Hc Hin Hinv el. unfold Site.stv_count. rewrite Hc. cbn [bind].
  destruct (int_of (VStr (ballots_count cl))) as [n|e]; cbn [bind]; [|done].
  destruct (forallb is_valid (Site.bound_forms candidates fs)) eqn:Hall; [|done].
  rewrite forallb_forall in Hall.
  rewrite Hall in Hinv; [done|].
  apply list_elem_of_In. unfold Site.bound_forms.
  by apply (list_elem_of_fmap_2'
              (λ '(empty_permitted, data), full_clean candidates empty_permitted data)
              _ (ep, data)).
Qed.

(** C4. A submitted ballot form in which two choice fields name the same
    candidate fails validation: [clean] raises the validation error
    'Invalid ballot', which is recorded among the errors of the form, the
    form is not valid, and the view produces no election data (hence no
    vote) from a formset that contains it. *)
Theorem duplicate_choice_rejected candidates ep data i j k c :
  i < j → j < length candidates → candidates !! k = Some c →
  submitted data i = pretty k → submitted data j = pretty k →
  clean candidates
    (cleaned_data (clean_fields (choices candidates) data
                     (fields candidates) (Form ∅ [])))
    = Raise (ValidationError "Invalid ballot") ∧
  (NON_FIELD_ERRORS, ValidationError "Invalid ballot")
    ∈ errors (full_clean candidates ep data) ∧
  is_valid (full_clean candidates ep data) = false ∧
  ∀ (cl : cleaned) (fs : Site.formset),
    get_candidates cl = Ok candidates → (ep, data) ∈ fs →
    ∀ el, Site.stv_count cl fs ≠ Ok (Some el).
Proof.
  intros Hij Hj Hk Hi Hjk.
  pose proof (pretty_nat_nonempty k) as Hne.
  assert (clean candidates
            (cleaned_data (clean_fields (choices candidates) data
                             (fields candidates) (Form ∅ [])))
          = Raise (ValidationError "Invalid ballot")) as Hclean.
  { apply (clean_twice _ _ i j (pretty k)); [done..| |].
    - apply (cleaned_choice _ _ _ k c); [lia|done..].
    - by apply (cleaned_choice _ _ _ k c). }
  assert (has_changed candidates data = true) as Hch.
  { destruct (has_changed candidates data) eqn:Hch; [done|].
    apply (has_changed_false _ _ j) in Hch; [|done]. congruence. }
  assert (full_clean candidates ep data =
          clean_form candidates
            (clean_fields (choices candidates) data (fields candidates)
               (Form ∅ []))) as Hfull.
  { unfold full_clean. rewrite Hch. by rewrite andb_false_r. }
  assert (is_valid (full_clean candidates ep data) = false) as Hinv.
  { rewrite Hfull. unfold clean_form, is_valid. rewrite Hclean. simpl.
    by destruct (errors _). }
  split; [done|]. split; [|split; [done|]].
  - rewrite Hfull. unfold clean_form. rewrite Hclean. simpl.
    apply elem_of_app. right. by left.
  - intros cl fs Hc Hin. by eapply invalid_form_no_election.
Qed.

Lemma duplicate_choice_rejected_witness :
  errors (full_clean Examples.two_candidates true Examples.twice_ballot)
    = [(NON_FIELD_ERRORS, ValidationError "Invalid ballot")] ∧
  is_valid (full_clean Examples.two_candidates true Examples.twice_ballot)
    = false.
Proof.
  split; [vm_compute; reflexivity|].
  apply (duplicate_choice_rejected Examples.two_candidates true
           Examples.twice_ballot 0 1 1 "D E F:T").
  - lia.
  - simpl. lia.
  - reflexivity.
  - vm_compute. reflexivity.
  - vm_compute. reflexivity.
Defined.

(** C5. Every [candidateTmpId] in a vote produced from a validated ballot
    form is the string index [str(k)] of a candidate [k] of the enumerated
    candidate list; a submitted choice that is neither empty nor such an
    index makes the form invalid, so no vote with an unknown candidate is
    ever produced. *)
Theorem votes_name_candidates candidates ep data serial :
  (is_valid (full_clean candidates ep data) = true →
   ∀ p, p ∈ votes (get_choices candidates
                     (cleaned_data (full_clean candidates ep data)) serial) →
     ∃ k c, k < length candidates ∧ candidates !! k = Some c ∧
            STVBallotForm.candidateTmpId p = pretty k) ∧
  (∀ i, i < length candidates → submitted data i ≠ "" →
     (∀ k, k < length candidates → submitted data i ≠ pretty k) →
     is_valid (full_clean candidates ep data) = false).
Proof.
  split.
  - intros Hvalid p Hp.
    destruct (valid_votes_lookup candidates ep data serial Hvalid)
      as (_ & Hlen & Hlook).
    apply full_clean_valid in Hvalid as (_ & Hreg & _).
    apply list_elem_of_lookup in Hp as [i Hi].
    assert (i < length candidates) as Hlt.
    { apply lookup_lt_Some in Hi. lia. }
    rewrite Hlook in Hi by done.
    destruct (decide (submitted data i = "")) as [|Hne]; [done|].
    injection Hi as <-. simpl.
    destruct (Hreg i Hlt Hne) as (k & c & Hk & ->).
    exists k, c. split; [by eapply lookup_lt_Some|done].
  - intros i Hi Hne Hunknown.
    destruct (is_valid (full_clean candidates ep data)) eqn:Hvalid; [|done].
    apply full_clean_valid in Hvalid as (_ & Hreg & _).
    destruct (Hreg i Hi Hne) as (k & c & Hk & Heq).
    destruct (Hunknown k); [by eapply lookup_lt_Some|done].
Qed.

End ballot_rejection.

(** ** The ballots assembled by the view *)

Section view.
Import STVBallotForm STVElectionForm Site.
Implicit Types (cands : list string) (forms : list form) (v : vote).

Lemma ballots_loop_app cands i forms acc :
  ballots_loop cands i forms acc = acc ++ ballots_loop cands i forms [].
Proof.
  revert i acc. induction forms as [|b rest IH]; intros i acc;
    cbn [ballots_loop].
  - by rewrite app_nil_r.
  - destruct (votes _); [apply IH|].
    rewrite IH, (IH _ ([] ++ _)). by rewrite app_assoc.
Qed.

Lemma ballots_loop_cons cands i b rest :
  ballots_loop cands i (b :: rest) [] =
    (match votes (get_choices cands (cleaned_data b) (i + 1)) with
     | [] => []
     | _ :: _ => [get_choices cands (cleaned_data b) (i + 1)]
     end) ++ ballots_loop cands (S i) rest [].
Proof.
  cbn [ballots_loop]. destruct (votes _); [done|]. by rewrite ballots_loop_app.
Qed.

Lemma elem_of_ballots_loop cands i forms v :
  v ∈ ballots_loop cands i forms [] ↔
  ∃ j b, forms !! j = Some b ∧
         v = get_choices cands (cleaned_data b) (i + j + 1) ∧ votes v ≠ [].
Proof.
  revert i. induction forms as [|b rest IH]; intros i.
  { simpl. split; [by intros ?%not_elem_of_nil|by intros (j & b & ? & _)]. }
  rewrite ballots_loop_cons, elem_of_app, IH. split.
  - intros [Hv|(j & b' & Hj & -> & Hne)].
    + exists 0, b. rewrite Nat.add_0_r.
      destruct (votes (get_choices cands (cleaned_data b) (i + 1))) eqn:Hvotes;
        [by apply not_elem_of_nil in Hv|].
      apply list_elem_of_singleton in Hv as ->. by rewrite Hvotes.
    + exists (S j), b'. replace (i + S j + 1) with (S i + j + 1) by lia. done.
  - intros ([|j] & b' & Hj & -> & Hne).
    + left. injection Hj as ->. rewrite Nat.add_0_r in *.
      destruct (votes (get_choices cands (cleaned_data b') (i + 1)));
        [done|by apply list_elem_of_singleton].
    + right. exists j, b'.
      replace (S i + j + 1) with (i + S j + 1) by lia. done.
Qed.



Lemma get_data_ballots (cl : cleaned) el : get_data cl = Ok el → ballots el = [].
Proof.
  unfold get_data.
  destruct (int_of _); cbn [bind]; [|done].
  destruct (get_candidates cl); cbn [bind]; [|done].
  destruct (schools_loop _ _ _); cbn [bind]; [|done].
  by intros [= <-].
Qed.

Lemma handed_ballots_Some (cl : cleaned) (fs : formset) cands bs :
  get_candidates cl = Ok cands → handed_ballots cl fs = Some bs →
  forallb is_valid (bound_forms cands fs) = true ∧
  bs = ballots_loop cands 0 (bound_forms cands fs) [].
Proof.
  intros Hc. unfold handed_ballots, stv_count. rewrite Hc. cbn [bind].
  destruct (int_of (VStr (ballots_count cl))); cbn [bind]; [|done].
  destruct (forallb is_valid (bound_forms cands fs)); [|done].
  destruct (get_data cl) as [el|] eqn:Hel; cbn [bind]; [|done].
  intros [= <-]. split; [done|]. by rewrite (get_data_ballots cl el).
Qed.

Lemma lookup_bound_forms cands (fs : formset) j b :
  bound_forms cands fs !! j = Some b ↔
  ∃ ep data, fs !! j = Some (ep, data) ∧ b = full_clean cands ep data.
Proof.
  unfold bound_forms. rewrite list_lookup_fmap_Some. split.
  - intros ([ep data] & -> & Hj). eauto.
  - intros (ep & data & Hj & ->). by exists (ep, data).
Qed.

End view.

Section view_claims.
Import STVBallotForm STVElectionForm Site.
Implicit Types (cands : list string) (data : gmap string string).

Lemma get_choices_loop_empty cd cands :
  get_val cd 0 = "" → get_choices_loop cd 0 cands [] = [].
Proof. intros Hv. destruct cands; simpl; [done|]. by rewrite Hv. Qed.

(** A form in which nothing is chosen passes validation and yields a vote
    without preferences. *)
Lemma empty_form_valid cands ep data serial :
  (∀ i, i < length cands → submitted data i = "") →
  is_valid (full_clean cands ep data) = true ∧
  votes (get_choices cands (cleaned_data (full_clean cands ep data)) serial) = [].
Proof.
  intros Hempty. unfold full_clean.
  destruct (ep && negb (has_changed cands data)); cbn zeta.
  { split; [done|]. by apply get_choices_loop_empty. }
  set (f1 := clean_fields (choices cands) data (fields cands) (Form ∅ [])).
  assert (∀ k, k ∈ fields cands →
            ChoiceField_clean (choices cands) (data !! k) = Ok "") as Hfields.
  { intros k (i & Hi & ->)%elem_of_fields. apply ChoiceField_clean_Ok.
    split; [|by left]. symmetry. by apply Hempty. }
  assert (errors f1 = []) as Herr.
  { apply clean_fields_no_errors; [done|]. intros k Hk. eauto. }
  assert (∀ i, get_val (cleaned_data f1) i = "") as Hval.
  { intros i. unfold get_val, f1. rewrite clean_fields_lookup.
    destruct (decide (choice_key i ∈ fields cands)) as [Hin|_].
    - by rewrite Hfields.
    - cbn [cleaned_data]. by rewrite lookup_empty. }
  assert (clean cands (cleaned_data f1) = Ok (cleaned_data f1)) as Hclean.
  { unfold clean. rewrite clean_loop_all_empty by (intros; apply Hval). done. }
  unfold clean_form. rewrite Hclean. unfold is_valid. simpl. rewrite Herr.
  split; [done|]. by apply get_choices_loop_empty.
Qed.

(** C1 (as the code has it). A ballot form without any choice is accepted:
    it passes validation and its vote has no preferences.  For a valid
    submission of the ballot formset, the ballot of a form appears in the
    ballot list handed to the counting engine exactly when it has at least
    one preference: the view skips the ballots without choices. *)
Theorem empty_ballot_skipped (cl : cleaned) (fs : formset) cands bs :
  (∀ ep data serial,
     (∀ i, i < length cands → submitted data i = "") →
     is_valid (full_clean cands ep data) = true ∧
     votes (get_choices cands (cleaned_data (full_clean cands ep data)) serial)
       = []) ∧
  (get_candidates cl = Ok cands → handed_ballots cl fs = Some bs →
   ∀ j ep data, fs !! j = Some (ep, data) →
     let v := get_choices cands (cleaned_data (full_clean cands ep data))
                (j + 1) in
     v ∈ bs ↔ votes v ≠ []).
Proof.
  split; [intros; by apply empty_form_valid|].
  intros Hc (_ & ->)%(handed_ballots_Some _ _ cands); [|done].
  intros j ep data Hj. cbn zeta. rewrite elem_of_ballots_loop. split.
  - by intros (j' & b' & _ & -> & Hne).
  - intros Hne. exists j, (full_clean cands ep data). split; [|done].
    apply lookup_bound_forms. eauto.
Qed.

Lemma empty_ballot_skipped_witness :
  is_valid (full_clean Examples.two_candidates true ∅) = true ∧
  Vote [Preference 1 "0"] 3 ∈
    [Vote [Preference 1 "1"; Preference 2 "0"] 1; Vote [Preference 1 "0"] 3].
Proof.
  split.
  - apply (proj1 (empty_ballot_skipped Examples.election
                    Examples.three_ballots Examples.two_candidates [])
             true ∅ 2).
    intros i Hi. unfold submitted. by rewrite lookup_empty.
  - apply (proj2 (empty_ballot_skipped Examples.election
                    Examples.three_ballots Examples.two_candidates
                    [Vote [Preference 1 "1"; Preference 2 "0"] 1;
                     Vote [Preference 1 "0"] 3])
             eq_refl eq_refl 2 true Examples.short_ballot eq_refl).
    vm_compute. discriminate.
Defined.

(** The claim C1 as stated fails: the second of three valid ballots has no
    choice, is accepted, and is missing from the list handed to the
    count. *)
Lemma empty_ballot_not_handed :
  get_candidates Examples.election = Ok Examples.two_candidates ∧
  Examples.three_ballots !! 1 = Some (true, ∅) ∧
  is_valid (full_clean Examples.two_candidates true ∅) = true ∧
  get_choices Examples.two_candidates
    (cleaned_data (full_clean Examples.two_candidates true ∅)) 2 = Vote [] 2 ∧
  handed_ballots Examples.election Examples.three_ballots =
    Some [Vote [Preference 1 "1"; Preference 2 "0"] 1;
          Vote [Preference 1 "0"] 3] ∧
  Vote [] 2 ∉ [Vote [Preference 1 "1"; Preference 2 "0"] 1;
               Vote [Preference 1 "0"] 3].
Proof.
  repeat split; try (vm_compute; reflexivity).
  intros Hin. repeat (apply elem_of_cons in Hin as [Hin|Hin]; [discriminate|]).
  by apply not_elem_of_nil in Hin.
Qed.



End view_claims.

(** ** The numeric fields of the question form *)

Section numeric_fields.
Import StvForm.

(** The cases of the guarded conversion shared by the two field methods. *)
Lemma positive_int_cases (s : string) (f : qform) (n : Z) :
  (match int_of (VStr s) with
   | Ok k => if (0 <? k)%Z then mret k
             else raise (ValidationError positive_message)
   | Raise ValueError => raise (ValidationError positive_message)
   | Raise e => raise e
   end f).1 = Ok n ↔ int s = Some n ∧ (0 < n)%Z.
Proof.
  simpl. destruct (int s) as [k|]; simpl.
  - destruct (0 <? k)%Z eqn:Hk; simpl.
    + apply Z.ltb_lt in Hk. split; [by intros [= <-]|by intros [[= <-] _]].
    + apply Z.ltb_ge in Hk. split; [done|]. intros [[= <-] ?]. lia.
  - split; [done|by intros [? _]].
Qed.

Lemma positive_int_error (s : string) (f : qform) :
  (¬ ∃ n, int s = Some n ∧ (0 < n)%Z) →
  (match int_of (VStr s) with
   | Ok k => if (0 <? k)%Z then mret k
             else raise (ValidationError positive_message)
   | Raise ValueError => raise (ValidationError positive_message)
   | Raise e => raise e
   end f) = (Raise (ValidationError positive_message), f).
Proof.
  intros Hnone. simpl. destruct (int s) as [k|]; simpl; [|done].
  destruct (0 <? k)%Z eqn:Hk; simpl; [|done].
  apply Z.ltb_lt in Hk. destruct Hnone. eauto.
Qed.

(** C6. [clean_eligibles] returns the submitted value as an integer exactly
    when the submitted string parses as an integer that is strictly
    positive; in every other case (zero, negative, not an integer) it raises
    the validation error 'Value must be a positve integer'.  The form is
    left unchanged. *)
Theorem clean_eligibles_positive (f : qform) (s : string) :
  cleaned f !! "eligibles" = Some (VStr s) →
  (∀ n, (clean_eligibles f).1 = Ok n ↔ int s = Some n ∧ (0 < n)%Z) ∧
  ((¬ ∃ n, int s = Some n ∧ (0 < n)%Z) →
   (clean_eligibles f).1 =
     Raise (ValidationError "Value must be a positve integer")) ∧
  (clean_eligibles f).2 = f.
Proof.
  intros Hs.
  assert (clean_eligibles f =
          match int_of (VStr s) with
          | Ok k => if (0 <? k)%Z then mret k
                    else raise (ValidationError positive_message)
          | Raise ValueError => raise (ValidationError positive_message)
          | Raise e => raise e
          end f) as ->.
  { unfold clean_eligibles, mbind, M_bind, get. by rewrite Hs. }
  split; [|split].
  - intros n. apply positive_int_cases.
  - intros Hnone. by rewrite positive_int_error.
  - simpl. destruct (int s) as [k|]; simpl; [|done]. by destruct (0 <? k)%Z.
Qed.

Lemma clean_eligibles_positive_witness :
  (clean_eligibles Examples.question_two).1 = Ok 2%Z.
Proof.
  apply (proj1 (clean_eligibles_positive Examples.question_two "2" eq_refl) 2%Z).
  split; [reflexivity|lia].
Defined.

(** C7. When [has_department_limit] is not checked,
    [clean_department_limit] returns 0 whatever was typed as the limit.
    When it is checked, the method returns the typed limit as an integer
    exactly when the text parses as a strictly positive integer, and raises
    the validation error for an empty text, zero, a negative number or a
    text that is not an integer.  [get_data] of the election form maps an
    absent [elected_limit] to 0. *)
Theorem clean_department_limit_optional (f : qform) :
  (truth (default VNone (cleaned f !! "has_department_limit")) = false →
   clean_department_limit f = (Ok 0%Z, f)) ∧
  (∀ s, cleaned f !! "has_department_limit" = Some (VBool true) →
        cleaned f !! "department_limit" = Some (VStr s) →
     (∀ n, (clean_department_limit f).1 = Ok n ↔
           int s = Some n ∧ (0 < n)%Z) ∧
     ((s = "" ∨ ¬ ∃ n, int s = Some n ∧ (0 < n)%Z) →
      (clean_department_limit f).1 =
        Raise (ValidationError "Value must be a positve integer"))) ∧
  (∀ cl el, STVElectionForm.get_data cl = Ok el →
     STVElectionForm.elected_limit cl = None →
     STVElectionForm.electedLimit el = 0%Z).
Proof.
  split; [|split].
  - intros Hoff. unfold clean_department_limit, mbind, M_bind, get.
    by rewrite Hoff.
  - intros s Hon Hs.
    assert (s ≠ "" → clean_department_limit f =
              match int_of (VStr s) with
              | Ok k => if (0 <? k)%Z then mret k
                        else raise (ValidationError positive_message)
              | Raise ValueError => raise (ValidationError positive_message)
              | Raise e => raise e
              end f) as Hfull.
    { intros Hne%truthy_true.
      unfold clean_department_limit, mbind, M_bind, get.
      rewrite Hon, Hs. simpl. by rewrite Hne. }
    assert (s = "" → clean_department_limit f =
              (Raise (ValidationError positive_message), f)) as Hempty.
    { intros ->. unfold clean_department_limit, mbind, M_bind, get.
      by rewrite Hon, Hs. }
    destruct (decide (s = "")) as [He|Hne].
    + rewrite Hempty by done. split.
      * intros n. subst s. split; [done|]. by intros [? _].
      * done.
    + rewrite Hfull by done. split.
      * intros n. apply positive_int_cases.
      * intros [?|Hnone]; [done|]. by rewrite positive_int_error.
  - intros cl el Hel Hnone. unfold STVElectionForm.get_data in Hel.
    destruct (int_of _); cbn [bind] in Hel; [|done].
    destruct (STVElectionForm.get_candidates cl); cbn [bind] in Hel; [|done].
    destruct (STVElectionForm.schools_loop _ _ _); cbn [bind] in Hel; [|done].
    injection Hel as <-. simpl. by rewrite Hnone.
Qed.

Lemma clean_department_limit_optional_witness :
  clean_department_limit Examples.question_twice
    = (Ok 0%Z, Examples.question_twice) ∧
  (clean_department_limit Examples.question_two).1 = Ok 1%Z ∧
  match STVElectionForm.get_data Examples.election with
  | Ok el => STVElectionForm.electedLimit el = 0%Z
  | Raise _ => False
  end.
Proof.
  split; [|split].
  - apply (proj1 (clean_department_limit_optional Examples.question_twice)).
    reflexivity.
  - apply (proj1 (proj1 (proj2 (clean_department_limit_optional
                                  Examples.question_two))
                    "1" eq_refl eq_refl) 1%Z).
    split; [reflexivity|lia].
  - destruct (STVElectionForm.get_data Examples.election) as [el|e] eqn:Hel.
    + apply (proj2 (proj2 (clean_department_limit_optional
                             Examples.question_two))
               Examples.election el Hel eq_refl).
    + vm_compute in Hel. discriminate.
Defined.

End numeric_fields.

(** ** The quota *)

Section quota.
Import QuotaCalculator.

(** C2. Under the Droop policy, for a positive number of valid ballots and
    a positive number of seats that the registry can fill, the quota
    calculator returns the floor of the ballots over the seats plus one,
    plus one.  With 3 valid ballots and 1 seat the quota is 2. *)
Theorem droop_quota_formula (registry : list Candidate) (valid_ballot_count seats : Z) :
  (0 < valid_ballot_count)%Z → (0 < seats)%Z →
  (seats ≤ Z.of_nat (length registry))%Z →
  compute registry valid_ballot_count seats true
    = inr (valid_ballot_count `div` (seats + 1) + 1)%Z ∧
  (valid_ballot_count = 3%Z → seats = 1%Z →
   compute registry valid_ballot_count seats true = inr 2%Z).
Proof.
  intros Hn Hs Hreg. unfold compute.
  assert ((valid_ballot_count =? 0)%Z = false) as -> by (apply Z.eqb_neq; lia).
  assert ((Z.of_nat (length registry) <? seats)%Z = false) as ->
    by (apply Z.ltb_ge; lia).
  split; [done|]. by intros -> ->.
Qed.

Lemma droop_quota_formula_witness :
  compute [Register 0 "A" None; Register 1 "B" None] 3 1 true = inr 2%Z.
Proof.
  apply (droop_quota_formula [Register 0 "A" None; Register 1 "B" None] 3 1);
    (simpl; lia) || reflexivity.
Defined.

End quota.

(** ** The quota flag of the question form *)

Section question_claims.
Import StvForm.
Implicit Types f : qform.

(** The bound of the loop is a [float]: [clean] stops at [range]. *)
Lemma clean_TypeError f : clean f = (Raise TypeError, f).
Proof. done. Qed.

(** C10 (the defect).  [StvForm.clean] divides the number of submitted
    answer keys by the number of values of the candidate widget with [/];
    the quotient is a [float], which [range] refuses.  So [clean] raises
    [TypeError] for every bound form, before it reads an answer, and leaves
    the form as it was: the line that sets [droop_quota] to [True] is never
    reached and no cleaned data are returned.  [UniCouncilsGrForm.clean]
    calls it first and raises the same error, so it never stores [False].
    For the submission without answers and with the check box left out,
    the flag stays [False], as submitted. *)
Theorem droop_quota_never_stored :
  (∀ f, StvForm.clean f = (Raise TypeError, f)) ∧
  (∀ f, UniCouncilsGrForm.clean f = (Raise TypeError, f)) ∧
  (StvForm.clean Cases.question_no_answers).1 = Raise TypeError ∧
  cleaned (StvForm.clean Cases.question_no_answers).2 !! "droop_quota"
    = Some (VBool false).
Proof.
  split; [exact clean_TypeError|]. split.
  - intros f. unfold UniCouncilsGrForm.clean, mbind, M_bind.
    by rewrite clean_TypeError.
  - rewrite clean_TypeError. split; [done|]. cbn [snd].
    vm_compute. reflexivity.
Qed.

End question_claims.

Section candidate_lists.

Lemma check_candidates_four cs :
  (∀ c, c ∈ cs → length (split "," c) = 4) →
  STVElectionForm.check_candidates cs = Ok ().
Proof.
  induction cs as [|c cs IH]; intros Hall; simpl; [done|].
  rewrite bool_decide_eq_false_2.
  - apply IH. intros c' Hc'. apply Hall. by right.
  - intros Hne. apply Hne, Hall. by left.
Qed.

(** The claim C9 as stated fails for the election form: a candidate list
    with the same line twice is accepted, and [get_data] registers both
    lines under the positions 0 and 1. *)
Lemma election_form_accepts_duplicates :
  STVElectionForm.clean_candidates Examples.candidates_twice
    = Ok ["A, B, C, S"; "A, B, C, S"] ∧
  match STVElectionForm.get_data Examples.election_twice with
  | Ok el => STVElectionForm.schools el !! "S"
  | Raise _ => None
  end = Some [STVElectionForm.Entry "B" "C" 0 "A";
              STVElectionForm.Entry "B" "C" 1 "A"].
Proof. split; vm_compute; reflexivity. Qed.

End candidate_lists.

Section ballot_witnesses.
Import STVBallotForm.

Lemma votes_name_candidates_witness :
  (∃ k c, k < length Examples.two_candidates ∧
          Examples.two_candidates !! k = Some c ∧ "1" = pretty k) ∧
  is_valid (full_clean Examples.two_candidates true Examples.unknown_ballot)
    = false.
Proof.
  split.
  - apply (proj1 (votes_name_candidates Examples.two_candidates true
                    Examples.full_ballot 1) eq_refl (Preference 1 "1")).
    vm_compute. left.
  - apply (proj2 (votes_name_candidates Examples.two_candidates true
                    Examples.unknown_ballot 1) 0).
    + simpl. lia.
    + vm_compute. discriminate.
    + intros [|[|k]] Hk; [vm_compute; discriminate..|simpl in Hk; lia].
Defined.

End ballot_witnesses.

(** ** Worked inputs *)

Section worked_inputs.
Import StvForm.

Example int_inputs :
  int <$> ["12"; " 7 "; "+5"; "0"; "-3"; "1.5"; ""; "abc"; "--1"] =
  [Some 12; Some 7; Some 5; Some 0; Some (-3); None; None; None; None]%Z.
Proof. reflexivity. Qed.

Example clean_eligibles_inputs :
  (λ s, (clean_eligibles
           (QForm "form-0" [] (<["eligibles" := VStr s]> ∅) ∅)).1)
    <$> ["3"; "0"; "-3"; "abc"] =
  [Ok 3%Z;
   Raise (ValidationError "Value must be a positve integer");
   Raise (ValidationError "Value must be a positve integer");
   Raise (ValidationError "Value must be a positve integer")].
Proof. vm_compute. reflexivity. Qed.

Example clean_department_limit_inputs :
  (λ '(b, s), (clean_department_limit
                 (QForm "form-0" []
                    (<["has_department_limit" := VBool b]>
                       (<["department_limit" := VStr s]> ∅)) ∅)).1)
    <$> [(false, "5"); (false, "abc"); (true, "2"); (true, "");
         (true, "0"); (true, "-1"); (true, "two")] =
  [Ok 0%Z; Ok 0%Z; Ok 2%Z;
   Raise (ValidationError "Value must be a positve integer");
   Raise (ValidationError "Value must be a positve integer");
   Raise (ValidationError "Value must be a positve integer");
   Raise (ValidationError "Value must be a positve integer")].
Proof. vm_compute. reflexivity. Qed.

(** The Droop quota is the least number of votes that [seats + 1]
    candidates cannot all reach. *)
Lemma droop_quota_least (registry : list QuotaCalculator.Candidate)
    (valid_ballot_count seats q : Z) :
  (0 < seats)%Z →
  QuotaCalculator.compute registry valid_ballot_count seats true = inr q →
  (valid_ballot_count < q * (seats + 1) ≤ valid_ballot_count + seats + 1)%Z.
Proof.
  intros Hs. unfold QuotaCalculator.compute.
  destruct (valid_ballot_count =? 0)%Z; [done|].
  destruct (Z.of_nat (length registry) <? seats)%Z; [done|].
  intros [= <-].
  pose proof (Z.div_mod valid_ballot_count (seats + 1)) as Hdiv.
  pose proof (Z.mod_pos_bound valid_ballot_count (seats + 1)) as Hmod.
  nia.
Qed.

End worked_inputs.

(** * Further properties of the forms *)

(** ** Exactly which ballots validate, and what they yield *)

Section ballot_extras.
Import STVBallotForm.
Implicit Types (candidates : list string) (data : gmap string string).

(** X1. A submitted ballot form passes validation exactly when every
    non-empty choice is the index of a candidate, no non-empty choice
    follows an empty one, and the non-empty choices are pairwise
    different. *)
Theorem ballot_validation_exact candidates ep data :
  is_valid (full_clean candidates ep data) = true ↔
  (∀ i, i < length candidates →
     submitted data i = "" ∨
     ∃ k c, candidates !! k = Some c ∧ submitted data i = pretty k) ∧
  (∀ i j, i < j → j < length candidates →
     submitted data i = "" → submitted data j = "") ∧
  NoDup (filter (λ s, s ≠ "")
           (submitted data <$> seq 0 (length candidates))).
Proof.
  split.
  - intros Hvalid. pose proof (valid_no_gap _ _ _ Hvalid) as Hgap.
    apply full_clean_valid in Hvalid as (Hval & Hreg & chosen & Hloop & Hlen).
    split; [|split; [done|]].
    + intros i Hi. destruct (decide (submitted data i = "")); [by left|].
      right. by apply Hreg.
    + apply clean_loop_Ok in Hloop as (-> & _ & _). rewrite app_nil_l in Hlen.
      apply len_set_NoDup in Hlen.
      erewrite list_fmap_ext; [exact Hlen|].
      intros n i [-> Hn]%lookup_seq. symmetry. by apply Hval.
  - intros (Hreg & Hgap & Hnd). by apply full_clean_accepts.
Qed.

Lemma submitted_ranking candidates data (prefs : list nat) :
  length prefs ≤ length candidates →
  (∀ i, i < length candidates →
     submitted data i = default "" (pretty <$> prefs !! i)) →
  submitted data <$> seq 0 (length candidates) =
    (pretty <$> prefs) ++ replicate (length candidates - length prefs) "".
Proof.
  intros Hlen Hsub. apply list_eq. intros i.
  rewrite list_lookup_fmap.
  destruct (decide (i < length candidates)) as [Hi|Hi].
  - rewrite lookup_seq_lt by done. simpl. rewrite Hsub by done.
    destruct (decide (i < length prefs)) as [Hp|Hp].
    + rewrite lookup_app_l by (by rewrite length_fmap).
      rewrite list_lookup_fmap.
      destruct (lookup_lt_is_Some_2 prefs i Hp) as [k ->]. done.
    + rewrite lookup_app_r by (rewrite length_fmap; lia).
      rewrite length_fmap, lookup_replicate_2 by lia.
      by rewrite lookup_ge_None_2 by lia.
  - rewrite lookup_seq_ge by lia. simpl. symmetry.
    apply lookup_ge_None_2. rewrite length_app, length_fmap, length_replicate.
    lia.
Qed.

Lemma filter_nonempty_pretty (prefs : list nat) :
  filter (λ s : string, s ≠ "") (pretty <$> prefs) = pretty <$> prefs.
Proof.
  induction prefs as [|k prefs IH]; [done|].
  rewrite fmap_cons, filter_cons_True by apply pretty_nat_nonempty.
  by rewrite IH.
Qed.

Lemma filter_nonempty_replicate n :
  filter (λ s : string, s ≠ "") (replicate n "") = [].
Proof.
  induction n as [|n IH]; [done|].
  simpl. by rewrite filter_cons_False by (intros Hne; by apply Hne).
Qed.

(** X2. A ranking that lists pairwise different candidates, submitted in
    the first fields in order with the other fields left empty, passes
    validation, and [get_choices] gives the ranking back: the preference of
    rank [i + 1] names the candidate ranked at position [i]. *)
Theorem ranking_round_trip candidates ep data (prefs : list nat) serial :
  NoDup prefs →
  (∀ k, k ∈ prefs → k < length candidates) →
  length prefs ≤ length candidates →
  (∀ i, i < length candidates →
     submitted data i = default "" (pretty <$> prefs !! i)) →
  is_valid (full_clean candidates ep data) = true ∧
  get_choices candidates (cleaned_data (full_clean candidates ep data)) serial
    = Vote (imap (λ i k, Preference (i + 1) (pretty k)) prefs) serial.
Proof.
  intros Hnd Hreg Hlen Hsub.
  assert (is_valid (full_clean candidates ep data) = true) as Hvalid.
  { apply full_clean_accepts.
    - intros i Hi. rewrite Hsub by done.
      destruct (prefs !! i) as [k|] eqn:Hk; simpl; [right|by left].
      destruct (lookup_lt_is_Some_2 candidates k) as [c Hc].
      { apply Hreg. by eapply list_elem_of_lookup_2. }
      eauto.
    - intros i j Hij Hj. rewrite !Hsub by lia.
      destruct (prefs !! i) as [k|] eqn:Hk; simpl.
      { intros []%pretty_nat_nonempty. }
      intros _. apply lookup_ge_None in Hk.
      by rewrite lookup_ge_None_2 by lia.
    - rewrite (submitted_ranking _ _ prefs) by done.
      rewrite filter_app, filter_nonempty_pretty, filter_nonempty_replicate.
      rewrite app_nil_r. by apply (NoDup_fmap_2 pretty). }
  split; [done|].
  destruct (valid_votes_lookup candidates ep data serial Hvalid)
    as (_ & Hle & Hlook).
  unfold get_choices in *. cbn [votes] in *. f_equal.
  apply list_eq. intros i. rewrite list_lookup_imap.
  destruct (decide (i < length candidates)) as [Hi|Hi].
  - rewrite Hlook, Hsub by done.
    destruct (prefs !! i) as [k|]; simpl; [|done].
    destruct (decide (pretty k = "")) as [[]%pretty_nat_nonempty|]. done.
  - rewrite lookup_ge_None_2 by lia.
    by rewrite lookup_ge_None_2 by lia.
Qed.

Lemma ranking_round_trip_witness :
  get_choices Examples.two_candidates
    (cleaned_data (full_clean Examples.two_candidates true
                     Examples.full_ballot)) 5
  = Vote [Preference 1 "1"; Preference 2 "0"] 5.
Proof.
  refine (proj2 (ranking_round_trip Examples.two_candidates true
                   Examples.full_ballot [1; 0] 5 _ _ _ _)).
  - apply NoDup_cons. split; [|apply NoDup_singleton].
    intros Hin%list_elem_of_singleton. discriminate Hin.
  - intros k Hk. apply elem_of_cons in Hk as [->|Hk]; [simpl; lia|].
    apply list_elem_of_singleton in Hk as ->. simpl. lia.
  - simpl. lia.
  - intros [|[|i]] Hi; [reflexivity..|simpl in Hi; lia].
Defined.

End ballot_extras.

(** ** Strings: stripping, splitting, searching *)

Section string_facts.
Implicit Types (s x y : string) (c sep : ascii).

Lemma contains_app c x y :
  contains c (x +:+ y) = contains c x || contains c y.
Proof.
  induction x as [|d x IH]; [done|].
  change (String d x +:+ y) with (String d (x +:+ y)).
  cbn [contains]. rewrite IH. by rewrite orb_assoc.
Qed.

Lemma append_assoc x y z : (x +:+ y) +:+ z = x +:+ (y +:+ z).
Proof.
  induction x as [|c x IH]; [done|].
  change (String c ((x +:+ y) +:+ z) = String c (x +:+ (y +:+ z))).
  by rewrite IH.
Qed.

Lemma split_nonempty sep s : split sep s ≠ [].
Proof.
  destruct s as [|c s]; simpl; [done|].
  case_bool_decide; [done|]. by destruct (split sep s).
Qed.

Lemma split_no_sep sep s : contains sep s = false → split sep s = [s].
Proof.
  induction s as [|c s IH]; [done|]. cbn [contains split].
  intros [Hc Hs]%orb_false_iff. rewrite Hc. by rewrite IH.
Qed.

Lemma split_app_sep sep x y :
  split sep (x +:+ String sep y) = split sep x ++ split sep y.
Proof.
  induction x as [|c x IH].
  - change ("" +:+ String sep y) with (String sep y). simpl.
    by rewrite bool_decide_eq_true_2.
  - change (String c x +:+ String sep y) with (String c (x +:+ String sep y)).
    cbn [split]. rewrite IH. case_bool_decide; [done|].
    pose proof (split_nonempty sep x). by destruct (split sep x).
Qed.

Lemma length_split_pos sep s : 1 ≤ length (split sep s).
Proof. pose proof (split_nonempty sep s). destruct (split sep s); simpl; [done|lia]. Qed.

Lemma length_split_app sep x y :
  length (split sep (x +:+ y)) + 1
    = length (split sep x) + length (split sep y).
Proof.
  induction x as [|c x IH].
  - change ("" +:+ y) with y. simpl. lia.
  - change (String c x +:+ y) with (String c (x +:+ y)). cbn [split].
    case_bool_decide; simpl; [lia|].
    pose proof (split_nonempty sep x). pose proof (split_nonempty sep (x +:+ y)).
    destruct (split sep x), (split sep (x +:+ y)); simpl in *; done || lia.
Qed.

Lemma length_split_contains sep s :
  contains sep s = true → 2 ≤ length (split sep s).
Proof.
  induction s as [|c s IH]; [done|]. cbn [contains split].
  case_bool_decide as Hc; simpl.
  - intros _. pose proof (length_split_pos sep s). lia.
  - intros Hs. specialize (IH Hs).
    destruct (split sep s); simpl in *; lia.
Qed.

Lemma contains_split c sep s :
  c ≠ sep → contains c s = existsb (contains c) (split sep s).
Proof.
  intros Hne. induction s as [|d s IH]; [done|]. cbn [contains split].
  destruct (decide (d = sep)) as [->|Hd].
  - rewrite (bool_decide_eq_true_2 (sep = sep)) by done.
    rewrite (bool_decide_eq_false_2 (sep = c)) by (intros ->; done).
    simpl. exact IH.
  - rewrite (bool_decide_eq_false_2 (d = sep)) by done.
    pose proof (split_nonempty sep s).
    destruct (split sep s) as [|h t]; [done|]. rewrite IH. simpl.
    by rewrite orb_assoc.
Qed.

Lemma contains_replace_other c a b s :
  c ≠ a → c ≠ b → contains c (replace a b s) = contains c s.
Proof.
  intros Ha Hb. induction s as [|d s IH]; [done|]. cbn [replace contains].
  rewrite IH. f_equal. destruct (decide (d = a)) as [->|Hd].
  - rewrite (bool_decide_eq_true_2 (a = a)) by done.
    rewrite (bool_decide_eq_false_2 (b = c)) by (intros ->; done).
    by rewrite (bool_decide_eq_false_2 (a = c)) by (intros ->; done).
  - by rewrite (bool_decide_eq_false_2 (d = a)) by done.
Qed.

Lemma contains_replace_gone a b s :
  a ≠ b → contains a (replace a b s) = false.
Proof.
  intros Hab. induction s as [|d s IH]; [done|]. cbn [replace contains].
  rewrite IH, orb_false_r. destruct (decide (d = a)) as [->|Hd].
  - rewrite (bool_decide_eq_true_2 (a = a)) by done.
    by apply bool_decide_eq_false_2.
  - rewrite (bool_decide_eq_false_2 (d = a)) by done.
    by apply bool_decide_eq_false_2.
Qed.

Lemma contains_lstrip c s :
  is_space c = false → contains c (lstrip s) = contains c s.
Proof.
  intros Hc. induction s as [|d s IH]; [done|]. cbn [lstrip].
  destruct (is_space d) eqn:Hd; [|done].
  rewrite IH. cbn [contains].
  rewrite bool_decide_eq_false_2; [done|]. intros ->. congruence.
Qed.

Lemma contains_rstrip c s :
  is_space c = false → contains c (rstrip s) = contains c s.
Proof.
  intros Hc. induction s as [|d s IH]; [done|]. cbn [rstrip contains].
  rewrite <- IH. destruct (rstrip s) as [|e r]; [|done].
  destruct (is_space d) eqn:Hd; [|done]. simpl.
  rewrite bool_decide_eq_false_2; [done|]. intros ->. congruence.
Qed.

Lemma contains_strip c s :
  is_space c = false → contains c (strip s) = contains c s.
Proof.
  intros Hc. unfold strip. by rewrite contains_rstrip, contains_lstrip.
Qed.

Lemma rstrip_idemp s : rstrip (rstrip s) = rstrip s.
Proof.
  induction s as [|c s IH]; [done|]. cbn [rstrip].
  destruct (rstrip s) as [|d r] eqn:Hr.
  - destruct (is_space c) eqn:Hc; [done|]. simpl. by rewrite Hc.
  - change (rstrip (String c (String d r))) with
      (match rstrip (String d r) with
       | EmptyString => if is_space c then EmptyString else String c EmptyString
       | String e r' => String c (String e r')
       end).
    by rewrite IH.
Qed.

(** A string that does not start with white space keeps its first
    character under [rstrip]. *)
Lemma lstrip_rstrip_lstrip s : lstrip (rstrip (lstrip s)) = rstrip (lstrip s).
Proof.
  induction s as [|c s IH]; [done|]. cbn [lstrip].
  destruct (is_space c) eqn:Hc; [done|]. cbn [rstrip].
  destruct (rstrip s) as [|d r]; rewrite ?Hc; simpl; by rewrite Hc.
Qed.

Lemma strip_idemp s : strip (strip s) = strip s.
Proof.
  unfold strip. by rewrite lstrip_rstrip_lstrip, rstrip_idemp.
Qed.

End string_facts.

(** ** The candidate list of the election form *)

Section election_candidates.
Import STVElectionForm.

Lemma check_candidates_Ok_inv cs :
  check_candidates cs = Ok () → ∀ c, c ∈ cs → length (split "," c) = 4.
Proof.
  induction cs as [|c cs IH]; simpl; [by intros _ c ?%not_elem_of_nil|].
  case_bool_decide as Hc; [done|]. intros Hcs c' [->|Hin]%elem_of_cons.
  - by destruct (decide (length (split "," c) = 4)).
  - by apply IH.
Qed.

Lemma check_candidates_Raise cs e :
  check_candidates cs = Raise e →
  ∃ pre c post, cs = pre ++ c :: post ∧
    (∀ c', c' ∈ pre → length (split "," c') = 4) ∧
    length (split "," c) ≠ 4 ∧
    e = ValidationError ("Candidate " +:+ c +:+ " is invalid").
Proof.
  induction cs as [|c cs IH]; simpl; [done|].
  destruct (decide (length (split "," c) = 4)) as [Hc|Hc].
  - rewrite bool_decide_eq_false_2 by (intros Hne; by apply Hne).
    intros (pre & c' & post & -> & Hpre & Hc' & ->)%IH.
    exists (c :: pre), c', post. split; [done|]. split; [|done].
    intros c'' [->|Hin]%elem_of_cons; [done|by apply Hpre].
  - rewrite bool_decide_eq_true_2 by done. intros [= <-].
    exists [], c, cs. split; [done|]. split; [|done].
    by intros c' ?%not_elem_of_nil.
Qed.

(** X3. [clean_candidates] splits the stripped text into lines and strips
    every line.  It returns these lines exactly when each of them has four
    comma-separated parts; otherwise it raises the validation error that
    names the first line that has not.  The lines it works on are never an
    empty list and are invariant under [strip]. *)
Theorem clean_candidates_exact (submitted : string) :
  let lines := strip <$> split "010" (strip submitted) in
  (∀ cs, clean_candidates submitted = Ok cs ↔
         cs = lines ∧ ∀ c, c ∈ lines → length (split "," c) = 4) ∧
  (∀ e, clean_candidates submitted = Raise e →
     ∃ pre c post, lines = pre ++ c :: post ∧
       (∀ c', c' ∈ pre → length (split "," c') = 4) ∧
       length (split "," c) ≠ 4 ∧
       e = ValidationError ("Candidate " +:+ c +:+ " is invalid")) ∧
  lines ≠ [] ∧
  (∀ c, c ∈ lines → strip c = c).
Proof.
  cbn zeta. unfold clean_candidates.
  change (map strip (split "010" (strip submitted)))
    with (strip <$> split "010" (strip submitted)).
  set (lines := strip <$> split "010" (strip submitted)).
  split; [|split; [|split]].
  - intros cs. split.
    + destruct (check_candidates lines) as [[]|e] eqn:Hcheck; simpl; [|done].
      intros [= <-]. split; [done|]. by apply check_candidates_Ok_inv.
    + intros [-> Hfour]. by rewrite check_candidates_four.
  - intros e. destruct (check_candidates lines) as [[]|e'] eqn:Hcheck; simpl;
      [done|].
    intros [= <-]. by apply check_candidates_Raise.
  - unfold lines. pose proof (split_nonempty "010" (strip submitted)).
    by destruct (split "010" (strip submitted)).
  - intros c (x & -> & _)%list_elem_of_fmap. apply strip_idemp.
Qed.

End election_candidates.

(** ** From the candidate list to the election data *)

Section election_data.
Import STVElectionForm ElectionData.

Lemma dashed_no_space x : contains " " (dashed x) = false.
Proof. unfold dashed. by apply contains_replace_gone. Qed.

Lemma dashed_colon x : contains ":" (dashed x) = contains ":" x.
Proof.
  unfold dashed. rewrite contains_replace_other by done.
  by apply contains_strip.
Qed.

Lemma format_candidate_four a b c d :
  format_candidate (map (λ x, replace " " "-" (strip x)) [a; b; c; d])
    = Ok (formatted a b c d).
Proof. done. Qed.

(** The candidates of [get_candidates] for lines of four parts. *)
Lemma get_candidates_loop_four cs :
  (∀ c, c ∈ cs → length (split "," c) = 4) →
  ∃ cands, get_candidates_loop cs = Ok cands ∧
    length cands = length cs ∧
    ∀ i c, cs !! i = Some c →
      ∃ a b c' d, split "," c = [a; b; c'; d] ∧
                  cands !! i = Some (formatted a b c' d).
Proof.
  induction cs as [|c cs IH]; intros Hfour.
  { exists []. split; [done|]. split; [done|]. by intros i c. }
  destruct IH as (cands & Hloop & Hlen & Hcands).
  { intros c' Hc'. apply Hfour. by right. }
  assert (∃ a b c' d, split "," c = [a; b; c'; d]) as (a & b & c' & d & Hc).
  { specialize (Hfour c (list_elem_of_here _ _)).
    destruct (split "," c) as [|a [|b [|c' [|d [|]]]]]; simplify_eq/=. eauto. }
  exists (formatted a b c' d :: cands). cbn [get_candidates_loop].
  rewrite Hc, format_candidate_four. cbn [bind]. rewrite Hloop. cbn [bind].
  split; [done|]. split; [simpl; by rewrite Hlen|].
  intros [|i] c0 Hi; simplify_eq/=; eauto 10.
Qed.

Lemma contains_formatted_name a b c :
  contains ":" (dashed a +:+ " " +:+ dashed b +:+ " " +:+ dashed c)
    = contains ":" a || contains ":" b || contains ":" c.
Proof.
  rewrite !contains_app, !dashed_colon. simpl.
  by destruct (contains ":" a), (contains ":" b).
Qed.

Lemma split_formatted_name a b c :
  split " " (dashed a +:+ " " +:+ dashed b +:+ " " +:+ dashed c)
    = [dashed a; dashed b; dashed c].
Proof.
  change (dashed a +:+ " " +:+ dashed b +:+ " " +:+ dashed c)
    with (dashed a +:+ String " " (dashed b +:+ String " " (dashed c))).
  rewrite !split_app_sep.
  by rewrite !split_no_sep by apply dashed_no_space.
Qed.

Lemma formatted_name_school a b c d :
  formatted a b c d
    = (dashed a +:+ " " +:+ dashed b +:+ " " +:+ dashed c)
      +:+ String ":" (dashed d).
Proof. unfold formatted. by rewrite !append_assoc. Qed.

Lemma split_formatted_colon a b c d :
  contains ":" a = false → contains ":" b = false →
  contains ":" c = false → contains ":" d = false →
  split ":" (formatted a b c d)
    = [dashed a +:+ " " +:+ dashed b +:+ " " +:+ dashed c; dashed d].
Proof.
  intros Ha Hb Hc Hd. rewrite formatted_name_school, split_app_sep.
  rewrite !split_no_sep; [done|by rewrite dashed_colon|].
  by rewrite contains_formatted_name, Ha, Hb, Hc.
Qed.

Lemma length_split_formatted a b c d :
  (contains ":" a || contains ":" b || contains ":" c || contains ":" d)
    = true →
  3 ≤ length (split ":" (formatted a b c d)).
Proof.
  intros Hcolon. rewrite formatted_name_school, split_app_sep, length_app.
  rewrite <- contains_formatted_name, <- (dashed_colon d) in Hcolon.
  pose proof (length_split_pos ":" (dashed d)).
  pose proof (length_split_pos ":"
                (dashed a +:+ " " +:+ dashed b +:+ " " +:+ dashed c)).
  apply orb_true_iff in Hcolon as [Hn|Hd].
  - apply length_split_contains in Hn. lia.
  - apply length_split_contains in Hd. lia.
Qed.

End election_data.

Section schools.
Import STVElectionForm ElectionData.
Implicit Types (m acc : gmap string (list candidate_entry)).

Lemma filed_insert acc s0 e0 s e :
  filed (<[s0 := default [] (acc !! s0) ++ [e0]]> acc) s e ↔
  filed acc s e ∨ (s = s0 ∧ e = e0).
Proof.
  unfold filed. destruct (decide (s = s0)) as [->|Hne].
  - rewrite lookup_insert_eq. split.
    + intros (es & [= <-] & [Hin|Hin%list_elem_of_singleton]%elem_of_app).
      * left. destruct (acc !! s0) as [es|]; simpl in Hin; [eauto|].
        by apply not_elem_of_nil in Hin.
      * by right.
    + intros [(es & Hes & Hin)|[_ ->]]; eexists; (split; [done|]).
      * rewrite Hes. simpl. apply elem_of_app. by left.
      * apply elem_of_app. right. by apply list_elem_of_singleton.
  - rewrite lookup_insert_ne by done. split; [by left|].
    by intros [?|[? _]].
Qed.

(** The general shape of one round of [schools_loop]. *)
Lemma schools_loop_cons i c rest acc m :
  schools_loop i (c :: rest) acc = Ok m →
  ∃ nm school first surname fathername,
    split ":" c = [nm; school] ∧
    split " " nm = [first; surname; fathername] ∧
    schools_loop (S i) rest
      (<[school := default [] (acc !! school)
                   ++ [Entry surname fathername i first]]> acc) = Ok m.
Proof.
  cbn [schools_loop].
  destruct (split ":" c) as [|nm [|school [|]]]; try done.
  destruct (split " " nm) as [|first [|surname [|fathername [|]]]] eqn:Hnm;
    try done.
  intros Hloop. by exists nm, school, first, surname, fathername.
Qed.

Lemma schools_loop_mono cands : ∀ i acc m s e,
  schools_loop i cands acc = Ok m → filed acc s e → filed m s e.
Proof.
  induction cands as [|c rest IH]; intros i acc m s e.
  { by intros [= <-]. }
  intros (nm & school & f & sn & fa & _ & _ & Hloop)%schools_loop_cons Hacc.
  eapply IH; [done|]. apply filed_insert. by left.
Qed.

(** Every position of the candidate list gets an entry with that
    position as its identifier. *)
Lemma schools_loop_covers cands : ∀ i acc m j,
  schools_loop i cands acc = Ok m → j < length cands →
  ∃ s e, filed m s e ∧ candidateTmpId e = i + j.
Proof.
  induction cands as [|c rest IH]; intros i acc m j; [simpl; lia|].
  intros (nm & school & f & sn & fa & _ & _ & Hloop)%schools_loop_cons Hj.
  destruct j as [|j].
  - exists school, (Entry sn fa i f). split; [|simpl; lia].
    eapply schools_loop_mono; [done|]. apply filed_insert. by right.
  - destruct (IH _ _ _ j Hloop) as (s & e & Hfiled & Hid); [simpl in Hj; lia|].
    exists s, e. split; [done|]. lia.
Qed.

Lemma schools_loop_sorted cands : ∀ i acc m,
  schools_loop i cands acc = Ok m → ids_sorted i acc →
  ids_sorted (i + length cands) m.
Proof.
  induction cands as [|c rest IH]; intros i acc m.
  { intros [= <-]. by rewrite Nat.add_0_r. }
  intros (nm & school & f & sn & fa & _ & _ & Hloop)%schools_loop_cons Hacc.
  replace (i + length (c :: rest)) with (S i + length rest) by (simpl; lia).
  apply (IH _ _ _ Hloop). intros s es.
  destruct (decide (s = school)) as [->|Hne].
  - rewrite lookup_insert_eq. intros [= <-].
    assert (StronglySorted lt (candidateTmpId <$> default [] (acc !! school)) ∧
            Forall (λ e, candidateTmpId e < i) (default [] (acc !! school)))
      as [Hs Hb].
    { destruct (acc !! school) as [es|] eqn:Hes; simpl.
      - by apply (Hacc school es).
      - split; constructor. }
    split.
    + rewrite fmap_app. apply StronglySorted_app. split; [|split; [done|]].
      * intros x y (e & -> & He)%list_elem_of_fmap Hy.
        apply list_elem_of_singleton in Hy as ->. simpl.
        rewrite Forall_forall in Hb. by apply Hb.
      * repeat constructor.
    + apply Forall_app. split.
      * eapply Forall_impl; [exact Hb|]. simpl. lia.
      * apply Forall_singleton. simpl. lia.
  - rewrite lookup_insert_ne by done. intros Hes.
    destruct (Hacc s es Hes) as [Hs Hb]. split; [done|].
    eapply Forall_impl; [exact Hb|]. simpl. lia.
Qed.

End schools.

Section election_data_claims.
Import STVElectionForm ElectionData.
Implicit Types (m acc : gmap string (list candidate_entry)).

(** Where the entries of the result come from. *)
Lemma schools_loop_filed cands : ∀ i acc m s e,
  schools_loop i cands acc = Ok m → filed m s e →
  filed acc s e ∨
  ∃ j c nm first surname fathername,
    cands !! j = Some c ∧ split ":" c = [nm; s] ∧
    split " " nm = [first; surname; fathername] ∧
    e = Entry surname fathername (i + j) first.
Proof.
  induction cands as [|c rest IH]; intros i acc m s e.
  { intros [= <-]. by left. }
  intros (nm & school & f & sn & fa & Hc & Hnm & Hloop)%schools_loop_cons Hm.
  destruct (IH _ _ _ _ _ Hloop Hm)
    as [[Hacc|[-> ->]]%filed_insert|(j & c' & nm' & f' & sn' & fa' & Hj & ? & ? & ->)].
  - by left.
  - right. exists 0, c, nm, f, sn, fa. by rewrite Nat.add_0_r.
  - right. exists (S j), c', nm', f', sn', fa'.
    by replace (i + S j) with (S i + j) by lia.
Qed.

Lemma get_data_Ok (cl : cleaned) el :
  get_data cl = Ok el →
  ∃ n cands, int (eligibles_count cl) = Some n ∧
    get_candidates cl = Ok cands ∧
    schools_loop 0 cands ∅ = Ok (schools el) ∧
    el = Election (name cl) (or_zero (elected_limit cl)) (voting_starts cl)
           (voting_ends cl) (institution cl) n (schools el) [].
Proof.
  unfold get_data. cbn [int_of].
  destruct (int (eligibles_count cl)) as [n|]; cbn [bind]; [|done].
  destruct (get_candidates cl) as [cands|]; cbn [bind]; [|done].
  destruct (schools_loop 0 cands ∅) as [m|] eqn:Hm; cbn [bind]; [|done].
  intros [= <-]. by exists n, cands.
Qed.

(** X4. When [get_data] returns the election data, every position of the
    candidate list has an entry whose [candidateTmpId] is that position,
    every entry carries a position of the list, two entries with the same
    identifier are the same entry of the same school, and within a school
    the identifiers grow strictly, so every candidate is registered exactly
    once.  The ballot list starts empty. *)
Theorem get_data_positions (cl : cleaned) el cands :
  get_data cl = Ok el → get_candidates cl = Ok cands →
  (∀ j, j < length cands →
     ∃ s e, filed (schools el) s e ∧ candidateTmpId e = j) ∧
  (∀ s e, filed (schools el) s e → candidateTmpId e < length cands) ∧
  (∀ s e s' e', filed (schools el) s e → filed (schools el) s' e' →
     candidateTmpId e = candidateTmpId e' → s = s' ∧ e = e') ∧
  (∀ s es, schools el !! s = Some es →
     StronglySorted lt (candidateTmpId <$> es)) ∧
  ballots el = [].
Proof.
  intros (n & cands' & _ & Hc & Hloop & Hel)%get_data_Ok Hcands.
  assert (cands' = cands) as -> by congruence.
  assert (∀ s e, filed (schools el) s e →
            ∃ j c nm first surname fathername,
              cands !! j = Some c ∧ split ":" c = [nm; s] ∧
              split " " nm = [first; surname; fathername] ∧
              e = Entry surname fathername j first) as Hfrom.
  { intros s e Hf.
    destruct (schools_loop_filed _ _ _ _ _ _ Hloop Hf) as [(es & Hes & _)|Hj].
    - by rewrite lookup_empty in Hes.
    - done. }
  split; [|split; [|split; [|split]]].
  - intros j Hj. by apply (schools_loop_covers cands 0 ∅).
  - intros s e (j & c & nm & f & sn & fa & Hj%lookup_lt_Some & _ & _ & ->)%Hfrom.
    done.
  - intros s e s' e'
      (j & c & nm & f & sn & fa & Hj & Hc1 & Hn1 & ->)%Hfrom
      (j' & c' & nm' & f' & sn' & fa' & Hj' & Hc2 & Hn2 & ->)%Hfrom Hid.
    simpl in Hid. subst j'. rewrite Hj in Hj'. injection Hj' as <-.
    rewrite Hc1 in Hc2. injection Hc2 as <- <-.
    rewrite Hn1 in Hn2. injection Hn2 as <- <- <-. done.
  - intros s es Hes.
    assert (ids_sorted 0 ∅) as Hempty.
    { intros s' es'. by rewrite lookup_empty. }
    by destruct (schools_loop_sorted cands 0 ∅ _ Hloop Hempty s es Hes).
  - by rewrite Hel.
Qed.

Lemma get_data_positions_witness :
  match get_data Examples.election with
  | Ok el => ballots el = []
  | Raise _ => False
  end.
Proof.
  assert (is_ok (get_data Examples.election) = true) as Hok
    by (vm_compute; reflexivity).
  destruct (get_data Examples.election) as [el|e] eqn:Hel.
  - apply (get_data_positions Examples.election el Examples.two_candidates Hel
             eq_refl).
  - discriminate Hok.
Defined.

Lemma get_candidates_loop_Forall2 cs :
  (∀ c, c ∈ cs → length (split "," c) = 4) →
  ∃ cands, get_candidates_loop cs = Ok cands ∧
    Forall2 (λ c fmt, ∃ a b c' d, split "," c = [a; b; c'; d] ∧
                                  fmt = formatted a b c' d) cs cands.
Proof.
  induction cs as [|c cs IH]; intros Hfour.
  { exists []. by split; [|constructor]. }
  destruct IH as (cands & Hloop & Hall).
  { intros c' Hc'. apply Hfour. by right. }
  assert (∃ a b c' d, split "," c = [a; b; c'; d]) as (a & b & c' & d & Hc).
  { specialize (Hfour c (list_elem_of_here _ _)).
    destruct (split "," c) as [|a [|b [|c' [|d [|]]]]]; simplify_eq/=. eauto. }
  exists (formatted a b c' d :: cands). cbn [get_candidates_loop].
  rewrite Hc, format_candidate_four. cbn [bind]. rewrite Hloop. cbn [bind].
  split; [done|]. constructor; [|done]. by exists a, b, c', d.
Qed.

Lemma contains_colon_parts c a b c' d :
  split "," c = [a; b; c'; d] →
  contains ":" c = contains ":" a || contains ":" b
                   || contains ":" c' || contains ":" d.
Proof.
  intros Hc. rewrite (contains_split ":" "," c) by done. rewrite Hc. simpl.
  by rewrite orb_false_r, !orb_assoc.
Qed.

Lemma schools_loop_formatted cs cands :
  Forall2 (λ c fmt, ∃ a b c' d, split "," c = [a; b; c'; d] ∧
                                fmt = formatted a b c' d) cs cands →
  (∀ c, c ∈ cs → contains ":" c = false) →
  ∀ i acc, ∃ m, schools_loop i cands acc = Ok m.
Proof.
  induction 1 as [|c fmt cs cands (a & b & c' & d & Hc & ->) _ IH];
    intros Hcolon i acc.
  { by exists acc. }
  pose proof (Hcolon c (list_elem_of_here _ _)) as Hno.
  rewrite (contains_colon_parts _ _ _ _ _ Hc) in Hno.
  apply orb_false_iff in Hno as [[[Ha Hb]%orb_false_iff Hc']%orb_false_iff Hd].
  cbn [schools_loop].
  rewrite split_formatted_colon, split_formatted_name by done.
  apply IH. intros c0 Hc0. apply Hcolon. by right.
Qed.

Lemma schools_loop_colon cs cands :
  Forall2 (λ c fmt, ∃ a b c' d, split "," c = [a; b; c'; d] ∧
                                fmt = formatted a b c' d) cs cands →
  ∀ c0, c0 ∈ cs → contains ":" c0 = true →
  ∀ i acc, schools_loop i cands acc = Raise ValueError.
Proof.
  induction 1 as [|c fmt cs cands (a & b & c' & d & Hc & ->) _ IH];
    intros c0 Hin Hcolon i acc.
  { by apply not_elem_of_nil in Hin. }
  destruct (contains ":" c) eqn:Hhead.
  - rewrite (contains_colon_parts _ _ _ _ _ Hc) in Hhead.
    apply length_split_formatted in Hhead. cbn [schools_loop].
    by destruct (split ":" (formatted a b c' d)) as [|? [|? [|]]];
      simpl in Hhead; try lia.
  - rewrite (contains_colon_parts _ _ _ _ _ Hc) in Hhead.
    apply orb_false_iff in Hhead as [[[Ha Hb]%orb_false_iff Hc']%orb_false_iff Hd].
    cbn [schools_loop].
    rewrite split_formatted_colon, split_formatted_name by done.
    apply elem_of_cons in Hin as [->|Hin].
    + rewrite (contains_colon_parts _ _ _ _ _ Hc), Ha, Hb, Hc', Hd in Hcolon.
      done.
    + by apply (IH c0).
Qed.

(** X5. For a candidate list accepted by [clean_candidates] (four
    comma-separated parts per line) and a number of eligibles that parses,
    [get_data] returns the election data when no line contains a colon,
    and raises [ValueError] as soon as some line contains one: the colon
    is the separator [get_candidates] puts before the school. *)
Theorem get_data_colon (cl : cleaned) (n : Z) :
  (∀ c, c ∈ candidates cl → length (split "," c) = 4) →
  int (eligibles_count cl) = Some n →
  ((∀ c, c ∈ candidates cl → contains ":" c = false) →
   ∃ el, get_data cl = Ok el ∧ numOfEligibles el = n) ∧
  (∀ c, c ∈ candidates cl → contains ":" c = true →
   get_data cl = Raise ValueError).
Proof.
  intros Hfour Hn.
  destruct (get_candidates_loop_Forall2 _ Hfour) as (cands & Hcands & Hall).
  unfold get_data, get_candidates. cbn [int_of]. rewrite Hn, Hcands.
  cbn [bind]. split.
  - intros Hcolon.
    destruct (schools_loop_formatted _ _ Hall Hcolon 0 ∅) as [m ->].
    cbn [bind]. eexists. split; [done|]. done.
  - intros c Hc Hcolon.
    by rewrite (schools_loop_colon _ _ Hall c Hc Hcolon).
Qed.

End election_data_claims.

Section election_data_witnesses.
Import STVElectionForm ElectionData.

Lemma get_data_colon_witness :
  (∃ el, get_data Examples.election = Ok el ∧ numOfEligibles el = 1%Z) ∧
  get_data Samples.election_colon = Raise ValueError.
Proof.
  split.
  - refine (proj1 (get_data_colon Examples.election 1 _ eq_refl) _).
    + intros c Hc. simpl in Hc.
      repeat (apply elem_of_cons in Hc as [->|Hc]; [reflexivity|]).
      apply not_elem_of_nil in Hc. destruct Hc.
    + intros c Hc. simpl in Hc.
      repeat (apply elem_of_cons in Hc as [->|Hc]; [reflexivity|]).
      apply not_elem_of_nil in Hc. destruct Hc.
  - refine (proj2 (get_data_colon Samples.election_colon 1 _ eq_refl)
              "D, E:e, F, T" _ eq_refl).
    + intros c Hc. simpl in Hc.
      repeat (apply elem_of_cons in Hc as [->|Hc]; [reflexivity|]).
      apply not_elem_of_nil in Hc. destruct Hc.
    + simpl. apply elem_of_cons. right. apply elem_of_cons. by left.
Defined.

End election_data_witnesses.

(** ** Repeated candidates in the election form *)

Section candidate_duplicates.
Import STVElectionForm ElectionData.

(** C9 (as the code has it).  The candidate-list validation of
    [STVElectionForm] has no duplicate check: [clean_candidates] checks
    nothing but the four comma-separated parts of every line, so it accepts
    a candidate list in which a line is repeated.  In the election
    configuration that [get_data] then produces, the two occurrences are
    two candidates: each is registered with its position in the list as
    its [candidateTmpId]. *)
Theorem duplicate_candidates_accepted submitted (data : cleaned) el i j c :
  (∀ c, c ∈ strip <$> split "010" (strip submitted) →
     length (split "," c) = 4) →
  i ≠ j →
  (strip <$> split "010" (strip submitted)) !! i = Some c →
  (strip <$> split "010" (strip submitted)) !! j = Some c →
  candidates data = strip <$> split "010" (strip submitted) →
  get_data data = Ok el →
  clean_candidates submitted
    = Ok (strip <$> split "010" (strip submitted)) ∧
  ∃ si ei sj ej,
    filed (schools el) si ei ∧ candidateTmpId ei = i ∧
    filed (schools el) sj ej ∧ candidateTmpId ej = j ∧
    ei ≠ ej.
Proof.
  intros Hfour Hij Hi Hj Hdata
    (n & cands & _ & Hcands & Hloop & _)%get_data_Ok.
  split.
  { unfold clean_candidates. by rewrite check_candidates_four. }
  destruct (get_candidates_loop_Forall2 _ Hfour) as (cands' & Hc' & Hall).
  unfold get_candidates in Hcands. rewrite Hdata, Hc' in Hcands.
  injection Hcands as ->.
  apply Forall2_length in Hall.
  assert (i < length cands) as Hilt.
  { rewrite <- Hall. by eapply lookup_lt_Some. }
  assert (j < length cands) as Hjlt.
  { rewrite <- Hall. by eapply lookup_lt_Some. }
  destruct (schools_loop_covers cands 0 ∅ _ i Hloop Hilt)
    as (si & ei & Hfi & Hidi).
  destruct (schools_loop_covers cands 0 ∅ _ j Hloop Hjlt)
    as (sj & ej & Hfj & Hidj).
  exists si, ei, sj, ej. repeat (split; [done|]).
  intros ->. simpl in Hidi, Hidj. congruence.
Qed.

Lemma duplicate_candidates_accepted_witness :
  clean_candidates Examples.candidates_twice
    = Ok (strip <$> split "010" (strip Examples.candidates_twice)) ∧
  match get_data Examples.election_twice with
  | Ok el =>
      ∃ si ei sj ej,
        filed (schools el) si ei ∧ candidateTmpId ei = 0 ∧
        filed (schools el) sj ej ∧ candidateTmpId ej = 1 ∧
        ei ≠ ej
  | Raise _ => False
  end.
Proof.
  assert (strip <$> split "010" (strip Examples.candidates_twice)
          = ["A, B, C, S"; "A, B, C, S"]) as Hlines by reflexivity.
  assert (∀ c, c ∈ strip <$> split "010" (strip Examples.candidates_twice) →
            length (split "," c) = 4) as Hfour.
  { rewrite Hlines. intros c Hc.
    repeat (apply elem_of_cons in Hc as [->|Hc]; [reflexivity|]).
    apply not_elem_of_nil in Hc. destruct Hc. }
  assert (0 ≠ 1) as Hne by lia.
  assert (is_ok (get_data Examples.election_twice) = true) as Hok
    by (vm_compute; reflexivity).
  destruct (get_data Examples.election_twice) as [el|e] eqn:Hel;
    [|discriminate Hok].
  destruct (duplicate_candidates_accepted Examples.candidates_twice
              Examples.election_twice el 0 1 "A, B, C, S" Hfour Hne)
    as [Hclean Hdistinct].
  - rewrite Hlines. reflexivity.
  - rewrite Hlines. reflexivity.
  - rewrite Hlines. reflexivity.
  - exact Hel.
  - split; [exact Hclean|exact Hdistinct].
Defined.

End candidate_duplicates.

(** ** The votes and the candidates handed to the count *)

Section count_input.
Import STVBallotForm STVElectionForm ElectionData Site.

Lemma stv_count_Some (cl : cleaned) (fs : formset) el :
  stv_count cl fs = Ok (Some el) →
  ∃ cands el0, get_candidates cl = Ok cands ∧
    forallb is_valid (bound_forms cands fs) = true ∧
    get_data cl = Ok el0 ∧
    schools el = schools el0 ∧
    numOfEligibles el = numOfEligibles el0 ∧
    electedLimit el = electedLimit el0 ∧
    ballots el = ballots_loop cands 0 (bound_forms cands fs) [].
Proof.
  unfold stv_count.
  destruct (get_candidates cl) as [cands|]; cbn [bind]; [|done].
  destruct (int_of (VStr (ballots_count cl))); cbn [bind]; [|done].
  destruct (forallb is_valid (bound_forms cands fs)) eqn:Hvalid; [|done].
  destruct (get_data cl) as [el0|] eqn:Hel; cbn [bind]; [|done].
  intros [= <-]. exists cands, el0. cbn.
  by rewrite (get_data_ballots cl el0).
Qed.

(** X6. When [stv_count] assembles the election data from a valid
    election form and a valid ballot formset (the branch of the request
    parameter [form]), every preference of every ballot in these data names
    a registered candidate: its [candidateTmpId] is the decimal text of the
    [candidateTmpId] of an entry filed under one of the schools.  The other
    branch of the view, which hands the content of an uploaded file to the
    count as it is, is not part of this statement. *)
Theorem handed_votes_registered (cl : cleaned) (fs : formset) el :
  stv_count cl fs = Ok (Some el) →
  ∀ v p, v ∈ ballots el → p ∈ votes v →
    ∃ s e, filed (schools el) s e ∧
           STVBallotForm.candidateTmpId p
             = pretty (STVElectionForm.candidateTmpId e).
Proof.
  intros (cands & el0 & Hc & Hvalid & Hel & -> & _ & _ & ->)%stv_count_Some
    v p Hv Hp.
  apply elem_of_ballots_loop in Hv as (j & b & Hb & -> & _).
  assert (is_valid b = true) as Hbvalid.
  { rewrite forallb_forall in Hvalid. apply Hvalid, list_elem_of_In.
    by eapply list_elem_of_lookup_2. }
  apply lookup_bound_forms in Hb as (ep & data & _ & ->).
  destruct (valid_votes_lookup cands ep data (0 + j + 1) Hbvalid)
    as (_ & Hlen & Hlook).
  apply full_clean_valid in Hbvalid as (_ & Hreg & _).
  apply list_elem_of_lookup in Hp as [i Hi].
  assert (i < length cands) as Hlt.
  { apply lookup_lt_Some in Hi. lia. }
  rewrite Hlook in Hi by done.
  destruct (decide (submitted data i = "")) as [|Hne]; [done|].
  injection Hi as <-. cbn [STVBallotForm.candidateTmpId].
  destruct (Hreg i Hlt Hne) as (k & c & Hk%lookup_lt_Some & ->).
  apply get_data_Ok in Hel as (n & cands' & _ & Hc' & Hloop & _).
  assert (cands' = cands) as -> by congruence.
  destruct (schools_loop_covers cands 0 ∅ _ k Hloop Hk) as (s & e & Hf & Hid).
  exists s, e. split; [done|]. by rewrite Hid.
Qed.

Lemma handed_votes_registered_witness :
  match stv_count Examples.election Examples.three_ballots with
  | Ok (Some el) =>
      ∃ s e, filed (schools el) s e ∧
             "0" = pretty (STVElectionForm.candidateTmpId e)
  | _ => True
  end.
Proof.
  assert (handed_ballots Examples.election Examples.three_ballots
          = Some [Vote [Preference 1 "1"; Preference 2 "0"] 1;
                  Vote [Preference 1 "0"] 3]) as Hbs
    by (vm_compute; reflexivity).
  unfold handed_ballots in Hbs.
  destruct (stv_count Examples.election Examples.three_ballots)
    as [[el|]|] eqn:Hel; [|exact I..].
  injection Hbs as Hbs.
  apply (handed_votes_registered Examples.election Examples.three_ballots
           el Hel (Vote [Preference 1 "0"] 3) (Preference 1 "0")).
  - rewrite Hbs. apply elem_of_cons. right. apply elem_of_cons. by left.
  - apply elem_of_cons. by left.
Defined.

End count_input.

(** ** The text of a question *)

Section question_text.
Import QuestionForm.
Implicit Types (s : string) (a b x y c : ascii).

(** Two-step induction on strings, as [replace2] recurses. *)
Lemma string_ind2 (P : string → Prop) :
  P "" → (∀ c, P (String c "")) →
  (∀ c d s, P s → P (String d s) → P (String c (String d s))) →
  ∀ s, P s.
Proof.
  intros Hnil Hone Hstep s.
  assert (P s ∧ ∀ c, P (String c s)) as [? _]; [|done].
  induction s as [|d s [IH1 IH2]]; [by split|].
  split; [apply IH2|]. intros c. by apply Hstep.
Qed.

Lemma replace2_cons a b x y c d s :
  replace2 a b x y (String c (String d s)) =
    if bool_decide (c = a) && bool_decide (d = b)
    then String x (String y (replace2 a b x y s))
    else String c (replace2 a b x y (String d s)).
Proof. done. Qed.

Lemma length_replace2 a b x y s :
  String.length (replace2 a b x y s) = String.length s.
Proof.
  induction s as [| |c d s IH1 IH2] using string_ind2; [done..|].
  rewrite replace2_cons.
  destruct (bool_decide (c = a) && bool_decide (d = b)); simpl in *; lia.
Qed.

Lemma contains_replace2 a b x y c s :
  c ≠ a → c ≠ b → c ≠ x → c ≠ y →
  contains c (replace2 a b x y s) = contains c s.
Proof.
  intros Ha Hb Hx Hy.
  induction s as [| |e d s IH1 IH2] using string_ind2; [done..|].
  rewrite replace2_cons.
  destruct (bool_decide (e = a) && bool_decide (d = b)) eqn:Hm.
  - apply andb_true_iff in Hm as [->%bool_decide_eq_true ->%bool_decide_eq_true].
    cbn [contains]. rewrite IH1.
    by rewrite !bool_decide_eq_false_2 by (intros ->; done).
  - cbn [contains] in *. by rewrite IH2.
Qed.

Lemma occurs2_cons a b c d s :
  occurs2 a b (String c (String d s)) =
    (bool_decide (c = a) && bool_decide (d = b)) || occurs2 a b (String d s).
Proof. done. Qed.

(** The first character of the result is [b] only when that of the
    argument is. *)
Lemma replace2_head a b y s r :
  a ≠ b → replace2 a b a y s = String b r → ∃ r', s = String b r'.
Proof.
  intros Hab. destruct s as [|c [|d s]].
  - done.
  - intros [= -> _]. eauto.
  - rewrite replace2_cons.
    destruct (bool_decide (c = a) && bool_decide (d = b)).
    + intros [= ? _]. by destruct Hab.
    + intros [= -> _]. eauto.
Qed.

Lemma occurs2_replace2 a b y s :
  a ≠ b → y ≠ b → y ≠ a → occurs2 a b (replace2 a b a y s) = false.
Proof.
  intros Hab Hyb Hya.
  induction s as [| |c d s IH1 IH2] using string_ind2; [done..|].
  rewrite replace2_cons.
  destruct (bool_decide (c = a) && bool_decide (d = b)) eqn:Hm.
  - rewrite occurs2_cons.
    rewrite (bool_decide_eq_false_2 (y = b)) by done. rewrite andb_false_r.
    rewrite orb_false_l.
    destruct (replace2 a b a y s) as [|e r] eqn:Hr; [done|].
    rewrite occurs2_cons, IH1, orb_false_r.
    by rewrite (bool_decide_eq_false_2 (y = a)) by done.
  - destruct (replace2 a b a y (String d s)) as [|e r] eqn:Hr; [done|].
    rewrite occurs2_cons, IH2, orb_false_r. apply andb_false_iff.
    destruct (decide (c = a)) as [->|Hc];
      [|left; by apply bool_decide_eq_false_2].
    right. apply bool_decide_eq_false_2. intros ->.
    destruct (replace2_head a b y (String d s) r Hab Hr) as [r' Hd].
    injection Hd as -> ->.
    by rewrite !bool_decide_eq_true_2 in Hm by done.
Qed.

Lemma replace2_none a b x y s :
  occurs2 a b s = false → replace2 a b x y s = s.
Proof.
  induction s as [| |c d s IH1 IH2] using string_ind2; [done..|].
  intros Hocc.
  rewrite occurs2_cons in Hocc. apply orb_false_iff in Hocc as [Hm Hrest].
  rewrite replace2_cons, Hm. by rewrite IH2.
Qed.

(** X9. [clean_question] rejects exactly the questions that contain a
    percent sign.  For the others it returns a text of the same length in
    which no colon is followed by a space any more and which still has no
    percent sign; a question without a colon followed by a space is
    returned as it is, and cleaning the result again changes nothing. *)
Theorem clean_question_exact question :
  if contains "%" (default "" question)
  then clean_question question
       = Raise (ValidationError "% is not a valid character.")
  else ∃ r, clean_question question = Ok r ∧
            String.length r = String.length (default "" question) ∧
            occurs2 ":" " " r = false ∧
            contains "%" r = false ∧
            (occurs2 ":" " " (default "" question) = false →
             r = default "" question) ∧
            clean_question (Some r) = Ok r.
Proof.
  unfold clean_question.
  destruct (contains "%" (default "" question)) eqn:Hpct; [done|].
  set (q := default "" question) in *.
  assert (contains "%" (replace2 ":" " " ":" "009" q) = false) as Hpct'.
  { by rewrite contains_replace2. }
  assert (occurs2 ":" " " (replace2 ":" " " ":" "009" q) = false) as Hocc.
  { by apply occurs2_replace2. }
  eexists. split; [done|]. split; [apply length_replace2|].
  split; [done|]. split; [done|]. split; [apply replace2_none|].
  cbn [from_option id]. rewrite Hpct'. f_equal. by apply replace2_none.
Qed.

End question_text.

(** ** The answers of a question form *)

Section question_answers.
Import QuestionForm.
Implicit Types (cd : cdict) (acc : list string).

Lemma answers_of_cons key v cd :
  answers_of ((key, v) :: cd) =
    if String.prefix "answer_" key then v :: answers_of cd else answers_of cd.
Proof.
  unfold answers_of, cdict. rewrite filter_cons. cbn [fst].
  destruct (decide (String.prefix "answer_" key = true)) as [->|Hk]; [done|].
  by apply not_true_is_false in Hk as ->.
Qed.

Lemma answers_loop_spec cd : ∀ acc,
  answers_loop cd acc =
    if existsb (contains "%") (answers_of cd)
    then Raise (ValidationError "% is not a valid character.")
    else Ok (acc ++ answers_of cd).
Proof.
  induction cd as [|[key v] cd IH]; intros acc.
  { cbn. by rewrite app_nil_r. }
  cbn [answers_loop]. rewrite answers_of_cons.
  destruct (String.prefix "answer_" key); [|apply IH].
  cbn [existsb]. destruct (contains "%" v); [done|].
  rewrite IH, orb_false_l. by rewrite <- app_assoc.
Qed.

Lemma dget_Some cd key v :
  NoDup cd.*1 → dget key cd = Some v ↔ (key, v) ∈ cd.
Proof.
  induction cd as [|[k w] cd IH]; intros Hnd.
  { split; [done|]. by intros ?%not_elem_of_nil. }
  apply NoDup_cons in Hnd as [Hk Hnd]. cbn [dget].
  rewrite elem_of_cons. destruct (decide (k = key)) as [->|Hne].
  - rewrite bool_decide_eq_true_2 by done. split.
    + intros [= ->]. by left.
    + intros [[= ->]|Hin]; [done|]. destruct Hk.
      apply list_elem_of_fmap. by exists (key, v).
  - rewrite bool_decide_eq_false_2 by done. rewrite IH by done. split.
    + by right.
    + intros [[= ? ?]|?]; [by destruct Hne|done].
Qed.

(** With distinct keys, [get] does not depend on the order of the items. *)
Lemma dget_perm cd cd' key :
  NoDup cd.*1 → cd ≡ₚ cd' → dget key cd = dget key cd'.
Proof.
  intros Hnd Hperm.
  assert (NoDup cd'.*1) as Hnd' by (by rewrite <- Hperm).
  destruct (dget key cd) as [v|] eqn:Hv.
  - symmetry. apply dget_Some; [done|]. rewrite <- Hperm. by apply dget_Some.
  - destruct (dget key cd') as [v|] eqn:Hv'; [|done].
    apply dget_Some in Hv'; [|done]. rewrite <- Hperm in Hv'.
    apply dget_Some in Hv'; [|done]. congruence.
Qed.

Lemma existsb_perm {A} (f : A → bool) (l l' : list A) :
  l ≡ₚ l' → existsb f l = existsb f l'.
Proof.
  induction 1 as [|x l l' _ IH|x y l|l l' l'' _ IH1 _ IH2]; cbn [existsb].
  - done.
  - by rewrite IH.
  - by destruct (f x), (f y).
  - congruence.
Qed.

Lemma len_set_perm (l l' : list string) : l ≡ₚ l' → len_set l = len_set l'.
Proof.
  intros Hperm. unfold len_set. f_equal. apply set_eq. intros x.
  by rewrite !elem_of_list_to_set, Hperm.
Qed.

Lemma answers_of_perm cd cd' : cd ≡ₚ cd' → answers_of cd ≡ₚ answers_of cd'.
Proof. intros Hperm. unfold answers_of. by rewrite Hperm. Qed.

Lemma existsb_false_Forall {A} (f : A → bool) (l : list A) :
  existsb f l = false ↔ Forall (λ x, f x = false) l.
Proof.
  induction l as [|x l IH]; cbn [existsb]; [by split|].
  rewrite Forall_cons, orb_false_iff. by rewrite IH.
Qed.

(** X10. [QuestionForm.clean] returns the cleaned data, unchanged, exactly
    when [max_answers] and [min_answers] are present and are texts of
    integers with [min_answers <= max_answers], no answer contains a
    percent sign, and the answers are pairwise different; it returns
    nothing else. *)
Theorem question_clean_exact cd :
  (clean cd = Ok cd ↔
   ∃ smax smin nmax nmin,
     dget "max_answers" cd = Some smax ∧ int smax = Some nmax ∧
     dget "min_answers" cd = Some smin ∧ int smin = Some nmin ∧
     (nmin ≤ nmax)%Z ∧
     Forall (λ v, contains "%" v = false) (answers_of cd) ∧
     NoDup (answers_of cd)) ∧
  (∀ r, clean cd = Ok r → r = cd).
Proof.
  unfold clean, int_get. rewrite answers_loop_spec, app_nil_l.
  split; [split|].
  - destruct (dget "max_answers" cd) as [smax|]; [|done].
    destruct (int smax) as [nmax|] eqn:Hmax; [|done]. cbn [bind].
    destruct (dget "min_answers" cd) as [smin|]; [|done].
    destruct (int smin) as [nmin|] eqn:Hmin; [|done]. cbn [bind].
    destruct (nmax <? nmin)%Z eqn:Hlt; [done|]. apply Z.ltb_ge in Hlt.
    destruct (existsb (contains "%") (answers_of cd)) eqn:Hpct; [done|].
    cbn [bind].
    destruct (len_set (answers_of cd) <? length (answers_of cd)) eqn:Hdup;
      [done|].
    apply Nat.ltb_ge in Hdup. intros _.
    exists smax, smin, nmax, nmin. repeat (split; [done|]).
    split; [by apply existsb_false_Forall|].
    apply len_set_NoDup. pose proof (len_set_le (answers_of cd)). lia.
  - intros (smax & smin & nmax & nmin & -> & Hmax & -> & Hmin & Hle
            & Hpct & Hnd).
    rewrite Hmax, Hmin. cbn [bind].
    apply Z.ltb_ge in Hle. rewrite Hle.
    apply existsb_false_Forall in Hpct. rewrite Hpct. cbn [bind].
    apply len_set_NoDup in Hnd. rewrite Hnd.
    by rewrite Nat.ltb_irrefl.
  - intros r.
    destruct (dget "max_answers" cd) as [smax|]; [|done].
    destruct (int smax) as [nmax|]; [|done]. cbn [bind].
    destruct (dget "min_answers" cd) as [smin|]; [|done].
    destruct (int smin) as [nmin|]; [|done]. cbn [bind].
    destruct (nmax <? nmin)%Z; [done|].
    destruct (existsb (contains "%") (answers_of cd)); [done|]. cbn [bind].
    destruct (len_set (answers_of cd) <? length (answers_of cd)); [done|].
    by intros [= ->].
Qed.

(** X11. The result of [QuestionForm.clean] does not depend on the order
    in which the cleaned data, a dictionary, is iterated: two orders of
    the same items either both give back the cleaned data or both raise
    the same exception. *)
Theorem question_clean_order cd cd' :
  NoDup cd.*1 → cd ≡ₚ cd' →
  (clean cd = Ok cd ∧ clean cd' = Ok cd') ∨
  (∃ e, clean cd = Raise e ∧ clean cd' = Raise e).
Proof.
  intros Hnd Hperm. unfold clean, int_get.
  rewrite <- !(dget_perm cd cd') by done.
  destruct (dget "max_answers" cd) as [smax|]; [|right; eauto].
  destruct (int smax) as [nmax|]; [|right; eauto]. cbn [bind].
  destruct (dget "min_answers" cd) as [smin|]; [|right; eauto].
  destruct (int smin) as [nmin|]; [|right; eauto]. cbn [bind].
  destruct (nmax <? nmin)%Z; [right; eauto|].
  rewrite !answers_loop_spec, !app_nil_l.
  pose proof (answers_of_perm cd cd' Hperm) as Hans.
  rewrite <- (existsb_perm _ _ _ Hans).
  destruct (existsb (contains "%") (answers_of cd)); [right; eauto|].
  cbn [bind].
  rewrite <- (len_set_perm _ _ Hans), <- (Permutation_length Hans).
  destruct (len_set (answers_of cd) <? length (answers_of cd));
    [right; eauto|by left].
Qed.

End question_answers.

(** ** The departments of an election *)

Section departments.
Import ElectionForm.
Implicit Types (s x y deps : string) (c sep : ascii) (l acc : list string).

Lemma contains_lstrip_false c s :
  contains c s = false → contains c (lstrip s) = false.
Proof.
  induction s as [|d s IH]; [done|]. cbn [lstrip].
  destruct (is_space d); [|done]. cbn [contains].
  intros [_ Hs]%orb_false_iff. by apply IH.
Qed.

Lemma contains_rstrip_false c s :
  contains c s = false → contains c (rstrip s) = false.
Proof.
  induction s as [|d s IH]; [done|]. cbn [rstrip contains].
  intros [Hd Hs]%orb_false_iff. specialize (IH Hs).
  destruct (rstrip s) as [|e r].
  - destruct (is_space d); [done|]. cbn [contains]. by rewrite Hd.
  - change (contains c (String d (String e r)))
      with (bool_decide (d = c) || contains c (String e r)).
    by rewrite Hd, IH.
Qed.

Lemma contains_strip_false c s :
  contains c s = false → contains c (strip s) = false.
Proof.
  intros Hs. by apply contains_rstrip_false, contains_lstrip_false.
Qed.

(** No part of a split text contains the separator. *)
Lemma split_pieces sep s : Forall (λ x, contains sep x = false) (split sep s).
Proof.
  induction s as [|c s IH]; [by repeat constructor|]. cbn [split].
  destruct (decide (c = sep)) as [->|Hc].
  - rewrite bool_decide_eq_true_2 by done. by constructor.
  - rewrite bool_decide_eq_false_2 by done.
    pose proof (split_nonempty sep s).
    destruct (split sep s) as [|h t]; [done|].
    apply Forall_cons in IH as [Hh Ht]. constructor; [|done].
    cbn [contains]. by rewrite bool_decide_eq_false_2, Hh by done.
Qed.

(** Splitting undoes joining, for a list that is not empty and whose items
    are free of the separator. *)
Lemma split_join sep l :
  l ≠ [] → Forall (λ x, contains sep x = false) l →
  split sep (join (String sep "") l) = l.
Proof.
  induction l as [|x [|y r] IH]; intros Hne Hall; [done| |].
  - apply Forall_cons in Hall as [Hx _]. by apply split_no_sep.
  - apply Forall_cons in Hall as [Hx Hall].
    change (join (String sep "") (x :: y :: r))
      with (x +:+ String sep (join (String sep "") (y :: r))).
    rewrite split_app_sep, IH by done. by rewrite split_no_sep.
Qed.

Lemma departments_loop_spec l : ∀ acc,
  departments_loop l acc = acc ++ filter (λ x, x ≠ "") (strip <$> l).
Proof.
  induction l as [|x l IH]; intros acc; cbn [departments_loop fmap list_fmap].
  { by rewrite app_nil_r. }
  assert (lstrip (strip x) = strip x) as -> by apply lstrip_rstrip_lstrip.
  destruct (strip x) as [|c r] eqn:Hx; cbn [truthy].
  - rewrite filter_cons_False by (by intros []). apply IH.
  - rewrite filter_cons_True by done. rewrite IH. by rewrite <- app_assoc.
Qed.

(** The department lines are not empty, are stripped and are free of line
    feeds. *)
Lemma departments_loop_lines deps :
  Forall (λ x, x ≠ "" ∧ strip x = x ∧ contains "010" x = false)
    (departments_loop (split "010" deps) []).
Proof.
  rewrite departments_loop_spec, app_nil_l.
  apply Forall_forall. intros x [Hx Hin]%list_elem_of_filter.
  apply list_elem_of_fmap in Hin as (y & -> & Hy).
  split; [done|]. split; [apply strip_idemp|].
  apply contains_strip_false.
  pose proof (split_pieces "010" deps) as Hall.
  rewrite Forall_forall in Hall. by apply Hall.
Qed.

Lemma departments_loop_fixed l :
  Forall (λ x, x ≠ "" ∧ strip x = x ∧ contains "010" x = false) l →
  departments_loop l [] = l.
Proof.
  intros Hall. rewrite departments_loop_spec, app_nil_l.
  induction Hall as [|x l (Hx & Hs & _) _ IH]; [done|].
  cbn [fmap list_fmap]. rewrite Hs, filter_cons_True by done. by rewrite IH.
Qed.

Lemma split_clean_departments deps :
  departments_loop (split "010" deps) [] ≠ [] →
  split "010" (clean_departments deps)
    = departments_loop (split "010" deps) [].
Proof.
  intros Hne. unfold clean_departments. apply split_join; [done|].
  eapply Forall_impl; [apply departments_loop_lines|]. by intros x (_ & _ & ?).
Qed.

(** X12. [clean_departments] keeps the stripped lines of the text that are
    not blank: the lines of its result are exactly these, in order, and
    the result is the empty text when there are none.  Cleaning a cleaned
    text changes nothing. *)
Theorem clean_departments_lines deps :
  departments_loop (split "010" deps) []
    = filter (λ x, x ≠ "") (strip <$> split "010" deps) ∧
  match departments_loop (split "010" deps) [] with
  | [] => clean_departments deps = ""
  | lines => split "010" (clean_departments deps) = lines
  end ∧
  clean_departments (clean_departments deps) = clean_departments deps.
Proof.
  split; [by rewrite departments_loop_spec|].
  pose proof (split_clean_departments deps) as Hsplit.
  pose proof (departments_loop_lines deps) as Hlines.
  assert (clean_departments deps
          = join (String "010" "") (departments_loop (split "010" deps) []))
    as Hclean by done.
  destruct (departments_loop (split "010" deps) []) as [|x lines].
  - split; [done|]. by rewrite Hclean.
  - specialize (Hsplit ltac:(done)). split; [done|].
    unfold clean_departments at 1.
    rewrite Hsplit, departments_loop_fixed by done. by rewrite Hclean.
Qed.

(** X13. The department choices that [StvForm] builds from a text cleaned
    by [clean_departments] are the department lines, each paired with
    itself; when there is no department the list has the single choice of
    the empty text. *)
Theorem department_choices_cleaned deps :
  DEPARTMENT_CHOICES (clean_departments deps) =
    match departments_loop (split "010" deps) [] with
    | [] => [("", "")]
    | lines => (λ dep, (dep, dep)) <$> lines
    end.
Proof.
  pose proof (split_clean_departments deps) as Hsplit.
  pose proof (departments_loop_lines deps) as Hlines.
  assert (clean_departments deps
          = join (String "010" "") (departments_loop (split "010" deps) []))
    as Hclean by done.
  unfold DEPARTMENT_CHOICES.
  destruct (departments_loop (split "010" deps) []) as [|x lines].
  - by rewrite Hclean.
  - rewrite Hsplit by done. apply list_eq. intros i.
    change (map ?f ?l) with (f <$> l). rewrite !list_lookup_fmap.
    destruct ((x :: lines) !! i) as [y|] eqn:Hy; [|done]. cbn.
    rewrite Forall_forall in Hlines.
    destruct (Hlines y) as (_ & -> & _); [|done].
    by eapply list_elem_of_lookup_2.
Qed.

End departments.

Section question_answers_witnesses.
Import QuestionForm.

Lemma question_clean_order_witness :
  clean (reverse Cases.question_cleaned)
    = Ok (reverse Cases.question_cleaned).
Proof.
  assert (NoDup Cases.question_cleaned.*1) as Hnd.
  { apply (bool_decide_unpack _). vm_compute. exact I. }
  assert (Cases.question_cleaned ≡ₚ reverse Cases.question_cleaned) as Hperm.
  { symmetry. apply reverse_Permutation. }
  destruct (question_clean_order Cases.question_cleaned
              (reverse Cases.question_cleaned) Hnd Hperm)
    as [[_ Hrev]|(e & Hcd & _)]; [exact Hrev|].
  vm_compute in Hcd. discriminate Hcd.
Defined.

End question_answers_witnesses.

(** ** The voting dates of an election *)

Section voting_dates.
Import ElectionForm.

(** X14. [clean_voting_dates] accepts a start, an end and an extension
    date exactly when they are strictly ordered, start before end before
    extension, and, where the end date may be edited, the end is not in
    the past; without an extension date the same holds of start and end.
    An extension date without an end date is compared with [None] and
    raises [TypeError], not a validation error; an extension date without
    a start date only has to follow the end date. *)
Theorem clean_voting_dates_ordered now feature :
  (∀ s e x,
     clean_voting_dates now feature (Some s) (Some e) (Some x) = Ok () ↔
     (s < e)%Z ∧ (e < x)%Z ∧ (feature = true → (now ≤ e)%Z)) ∧
  (∀ s e,
     clean_voting_dates now feature (Some s) (Some e) None = Ok () ↔
     (s < e)%Z ∧ (feature = true → (now ≤ e)%Z)) ∧
  (∀ starts x,
     clean_voting_dates now feature starts None (Some x) = Raise TypeError) ∧
  (∀ e x,
     clean_voting_dates now feature None (Some e) (Some x) = Ok () ↔
     (e < x)%Z).
Proof.
  split; [|split; [|split]].
  - intros s e x. unfold clean_voting_dates.
    destruct (Z.ltb_spec e now), feature; cbn [andb bind];
      destruct (Z.leb_spec e s); cbn [bind];
      destruct (Z.leb_spec x e); split; try done;
      try (intros (? & ? & ?); lia); try (intros _; repeat split; lia).
    all: intros (? & ? & Hnow); specialize (Hnow eq_refl); lia.
  - intros s e. unfold clean_voting_dates.
    destruct (Z.ltb_spec e now), feature; cbn [andb bind];
      destruct (Z.leb_spec e s); cbn [bind]; split; try done;
      try (intros (? & ?); lia); try (intros _; repeat split; lia).
    all: intros (? & Hnow); specialize (Hnow eq_refl); lia.
  - intros starts x. by destruct starts.
  - intros e x. unfold clean_voting_dates. cbn [bind].
    destruct (Z.leb_spec x e); split; try done; lia.
Qed.

End voting_dates.

(** ** The time of day of the date and time widget *)

Section widget.
Import JqSplitDateTimeWidget.

(** The minute that [decompress] shows: a quarter of an hour and the last
    minute of the day stay, every other minute becomes the full hour. *)
Lemma timeofday_selectable h m :
  h < 24 → m < 60 →
  (if bool_decide (clock h m ∈ hour_selections.*1) then clock h m
   else pad2 h +:+ ":00")
  = clock h (if bool_decide (m ∈ [0; 15; 30; 45]) ||
                bool_decide (h = 23 ∧ m = 59) then m else 0) ∧
  clock h (if bool_decide (m ∈ [0; 15; 30; 45]) ||
              bool_decide (h = 23 ∧ m = 59) then m else 0)
    ∈ hour_selections.*1.
Proof.
  intros Hh Hm.
  assert (forallb (λ h, forallb (λ m,
            bool_decide
              ((if bool_decide (clock h m ∈ hour_selections.*1) then clock h m
                else pad2 h +:+ ":00")
               = clock h (if bool_decide (m ∈ [0; 15; 30; 45]) ||
                             bool_decide (h = 23 ∧ m = 59) then m else 0) ∧
               clock h (if bool_decide (m ∈ [0; 15; 30; 45]) ||
                           bool_decide (h = 23 ∧ m = 59) then m else 0)
                 ∈ hour_selections.*1))
            (seq 0 60)) (seq 0 24) = true) as Hall
    by (vm_compute; reflexivity).
  rewrite forallb_forall in Hall.
  specialize (Hall h ltac:(apply in_seq; lia)).
  rewrite forallb_forall in Hall.
  specialize (Hall m ltac:(apply in_seq; lia)).
  by apply bool_decide_eq_true in Hall.
Qed.

(** X15. For a date and time, [decompress] gives the date and a time of
    day that is one of the choices of the time selection: the time itself
    at a quarter of an hour and at 23:59, the full hour otherwise. *)
Theorem decompress_selectable dt :
  hour dt < 24 → minute dt < 60 →
  ∃ t, decompress (WDateTime dt) = [Some (date_text dt); Some t] ∧
       t ∈ hour_selections.*1 ∧
       t = clock (hour dt)
             (if bool_decide (minute dt ∈ [0; 15; 30; 45]) ||
                 bool_decide (hour dt = 23 ∧ minute dt = 59)
              then minute dt else 0).
Proof.
  intros Hh Hm.
  destruct (timeofday_selectable (hour dt) (minute dt) Hh Hm) as [Heq Hin].
  eexists. split; [|split; [exact Hin|reflexivity]].
  unfold decompress. by rewrite Heq.
Qed.

Lemma decompress_selectable_witness :
  ∃ t, decompress (WDateTime Cases.past_noon)
         = [Some (date_text Cases.past_noon); Some t] ∧
       t ∈ hour_selections.*1 ∧
       t = clock 12 0.
Proof.
  assert (hour Cases.past_noon < 24) as Hh by (vm_compute; lia).
  assert (minute Cases.past_noon < 60) as Hm by (vm_compute; lia).
  exact (decompress_selectable Cases.past_noon Hh Hm).
Defined.

End widget.

(** ** The demo accounts *)

Section demo.
Import Demo.
Implicit Types (cfg : settings) (st : state) (req : request).
Implicit Types (reqs : list request) (a : string).

(** A request either leaves the state as it is, with a response that is
    not [Sent], or passes every check and is recorded. *)
Lemma demo_cases cfg st req :
  ((demo cfg st req).2 = st ∧ ∀ u, (demo cfg st req).1 ≠ Sent u) ∨
  ∃ a u,
    client_address req = Some a ∧
    (DEMO_SUBMIT_INTERVAL_SECONDS cfg
       ≤ now_seconds req - last_seconds st a)%Z ∧
    (email_address req ∈ emails_of st a ∨
     size (emails_of st a) < DEMO_EMAILS_PER_IP cfg) ∧
    demo cfg st req =
      (Sent u,
       State (<[a := now_seconds req]> (demo_addresses st))
         (<[a := {[email_address req]} ∪ emails_of st a]>
            (demo_emails_per_address st))).
Proof.
  unfold demo.
  destruct (is_post req); [|by left].
  destruct (email_is_valid req); [|by left]. cbn [negb].
  destruct (client_address req) as [[|c a]|]; [by left| |by left].
  destruct (Z.ltb_spec (now_seconds req - last_seconds st (String c a))
              (DEMO_SUBMIT_INTERVAL_SECONDS cfg)); [by left|].
  destruct (bool_decide (email_address req ∉ emails_of st (String c a)) &&
            (DEMO_EMAILS_PER_IP cfg <=? size (emails_of st (String c a))))
    eqn:Hquota; [by left|].
  destruct (demo_user req) as [u|]; [|by left].
  right. exists (String c a), u. split; [done|]. split; [done|].
  split; [|done].
  apply andb_false_iff in Hquota as [Hin|Hsize].
  - left. apply bool_decide_eq_false in Hin.
    by destruct (decide (email_address req ∈ emails_of st (String c a))).
  - right. by apply Nat.leb_gt in Hsize.
Qed.

Lemma last_seconds_insert st a a' now emails :
  last_seconds (State (<[a' := now]> (demo_addresses st)) emails) a =
    if bool_decide (a' = a) then now else last_seconds st a.
Proof.
  unfold last_seconds. cbn [demo_addresses].
  destruct (decide (a' = a)) as [->|Hne].
  - by rewrite bool_decide_eq_true_2, lookup_insert_eq by done.
  - by rewrite bool_decide_eq_false_2, lookup_insert_ne by done.
Qed.

Lemma emails_of_insert st a a' times emails :
  emails_of (State times (<[a' := emails]> (demo_emails_per_address st))) a =
    if bool_decide (a' = a) then emails else emails_of st a.
Proof.
  unfold emails_of. cbn [demo_emails_per_address].
  destruct (decide (a' = a)) as [->|Hne].
  - by rewrite bool_decide_eq_true_2, lookup_insert_eq by done.
  - by rewrite bool_decide_eq_false_2, lookup_insert_ne by done.
Qed.

(** One request keeps the registered addresses and the bound on their
    number. *)
Lemma demo_emails_step cfg st req a :
  emails_of st a ⊆ emails_of (demo cfg st req).2 a ∧
  (size (emails_of st a) ≤ DEMO_EMAILS_PER_IP cfg →
   size (emails_of (demo cfg st req).2 a) ≤ DEMO_EMAILS_PER_IP cfg).
Proof.
  destruct (demo_cases cfg st req)
    as [[-> _]|(a' & u & _ & _ & Hquota & ->)]; [done|].
  cbn [snd]. rewrite emails_of_insert.
  destruct (decide (a' = a)) as [->|Hne];
    [|by rewrite bool_decide_eq_false_2 by done].
  rewrite bool_decide_eq_true_2 by done.
  split; [apply union_subseteq_r|]. intros Hsize.
  destruct Hquota as [Hin|Hlt].
  - assert ({[email_address req]} ∪ emails_of st a = emails_of st a) as ->;
      [|done].
    apply set_eq. intros x. rewrite elem_of_union, elem_of_singleton.
    split; [by intros [->|?]|by right].
  - rewrite size_union_alt, size_singleton.
    assert (size (emails_of st a ∖ {[email_address req]})
            ≤ size (emails_of st a)) as Hle; [|lia].
    apply subseteq_size. intros x. rewrite elem_of_difference. by intros [? _].
Qed.

(** X16. However many requests are served, the e-mail addresses that were
    given a demo account from a client address stay registered, and their
    number stays within [DEMO_EMAILS_PER_IP] if it was within it at the
    start. *)
Theorem demo_emails_bounded cfg reqs : ∀ st a,
  size (emails_of st a) ≤ DEMO_EMAILS_PER_IP cfg →
  emails_of st a ⊆ emails_of (serve cfg st reqs) a ∧
  size (emails_of (serve cfg st reqs) a) ≤ DEMO_EMAILS_PER_IP cfg.
Proof.
  induction reqs as [|req reqs IH]; intros st a Hsize; [done|].
  cbn [serve].
  destruct (demo_emails_step cfg st req a) as [Hsub Hstep].
  destruct (IH (demo cfg st req).2 a (Hstep Hsize)) as [Hsub' Hsize'].
  split; [|done]. by etrans.
Qed.

(** The time of the last account given to a client address does not go
    back when the interval is not negative. *)
Lemma last_seconds_step cfg st req a :
  (0 ≤ DEMO_SUBMIT_INTERVAL_SECONDS cfg)%Z →
  (last_seconds st a ≤ last_seconds (demo cfg st req).2 a)%Z.
Proof.
  intros Hint.
  destruct (demo_cases cfg st req)
    as [[-> _]|(a' & u & _ & Hnow & _ & ->)]; [done|].
  cbn [snd]. rewrite last_seconds_insert.
  destruct (decide (a' = a)) as [->|Hne].
  - rewrite bool_decide_eq_true_2 by done. lia.
  - by rewrite bool_decide_eq_false_2 by done.
Qed.

Lemma responses_Sent cfg st req u :
  (demo cfg st req).1 = Sent u →
  ∃ a, client_address req = Some a ∧
       (DEMO_SUBMIT_INTERVAL_SECONDS cfg
          ≤ now_seconds req - last_seconds st a)%Z ∧
       last_seconds (demo cfg st req).2 a = now_seconds req.
Proof.
  intros Hsent.
  destruct (demo_cases cfg st req)
    as [[_ Hno]|(a & u' & Ha & Hnow & _ & Heq)]; [by destruct (Hno u)|].
  exists a. split; [done|]. split; [done|].
  rewrite Heq. cbn [snd]. rewrite last_seconds_insert.
  by rewrite bool_decide_eq_true_2.
Qed.

Lemma sent_after cfg reqs : ∀ st j rj a v,
  (0 ≤ DEMO_SUBMIT_INTERVAL_SECONDS cfg)%Z →
  reqs !! j = Some rj → client_address rj = Some a →
  responses cfg st reqs !! j = Some (Sent v) →
  (DEMO_SUBMIT_INTERVAL_SECONDS cfg
     ≤ now_seconds rj - last_seconds st a)%Z.
Proof.
  induction reqs as [|req reqs IH]; intros st j rj a v Hint Hj Ha Hv;
    [done|].
  destruct j as [|j]; cbn [responses] in Hv; simpl in Hj, Hv.
  - injection Hj as ->. injection Hv as Hv.
    destruct (responses_Sent cfg st rj v Hv) as (a' & Ha' & Hnow & _).
    congruence.
  - pose proof (IH _ j rj a v Hint Hj Ha Hv) as Hnow.
    pose proof (last_seconds_step cfg st req a Hint). lia.
Qed.

(** X17. Two demo accounts given to the same client address are at least
    [DEMO_SUBMIT_INTERVAL_SECONDS] apart, whatever was requested in
    between and from whatever state the requests are served, provided the
    interval is not negative. *)
Theorem demo_rate_limit cfg reqs : ∀ st i j ri rj a u v,
  (0 ≤ DEMO_SUBMIT_INTERVAL_SECONDS cfg)%Z →
  i < j → reqs !! i = Some ri → reqs !! j = Some rj →
  client_address ri = Some a → client_address rj = Some a →
  responses cfg st reqs !! i = Some (Sent u) →
  responses cfg st reqs !! j = Some (Sent v) →
  (DEMO_SUBMIT_INTERVAL_SECONDS cfg ≤ now_seconds rj - now_seconds ri)%Z.
Proof.
  induction reqs as [|req reqs IH];
    intros st i j ri rj a u v Hint Hij Hi Hj Hai Haj Hu Hv; [done|].
  destruct j as [|j]; [lia|].
  cbn [responses] in Hu, Hv. simpl in Hj, Hv.
  destruct i as [|i]; simpl in Hi, Hu.
  - injection Hi as ->. injection Hu as Hu.
    destruct (responses_Sent cfg st ri u Hu) as (a' & Ha' & _ & Hlast).
    assert (a' = a) as -> by congruence.
    pose proof (sent_after cfg reqs _ j rj a v Hint Hj Haj Hv) as Hnow.
    by rewrite Hlast in Hnow.
  - apply (IH (demo cfg st req).2 i j ri rj a u v); [done|lia|done..].
Qed.

End demo.

Section demo_witnesses.
Import Demo.

Lemma demo_emails_bounded_witness :
  emails_of initial "10.0.0.1"
    ⊆ emails_of (serve Cases.demo_settings initial Cases.demo_requests)
        "10.0.0.1" ∧
  size (emails_of (serve Cases.demo_settings initial Cases.demo_requests)
          "10.0.0.1") ≤ 2.
Proof.
  assert (size (emails_of initial "10.0.0.1")
          ≤ DEMO_EMAILS_PER_IP Cases.demo_settings) as Hsize
    by (vm_compute; lia).
  exact (demo_emails_bounded Cases.demo_settings Cases.demo_requests
           initial "10.0.0.1" Hsize).
Defined.

Lemma demo_rate_limit_witness :
  (DEMO_SUBMIT_INTERVAL_SECONDS Cases.demo_settings
     ≤ now_seconds (Cases.demo_request "bob@example.org" 1420000100)
       - now_seconds (Cases.demo_request "ann@example.org" 1420000000))%Z.
Proof.
  assert (responses Cases.demo_settings initial Cases.demo_requests
          = [Sent "demo1"; TooManyRequests; Sent "demo1"]) as Hres
    by (vm_compute; reflexivity).
  assert (0 ≤ DEMO_SUBMIT_INTERVAL_SECONDS Cases.demo_settings)%Z as Hint
    by (vm_compute; discriminate).
  refine (demo_rate_limit Cases.demo_settings Cases.demo_requests initial
            0 2 (Cases.demo_request "ann@example.org" 1420000000)
            (Cases.demo_request "bob@example.org" 1420000100)
            "10.0.0.1" "demo1" "demo1" Hint _ eq_refl eq_refl eq_refl eq_refl
            _ _).
  - lia.
  - by rewrite Hres.
  - by rewrite Hres.
Defined.

End demo_witnesses.

(** ** The answers of a scores form *)

Section scores_form.
Import QuestionForm.

(** X18. [ScoresForm.clean] returns the cleaned data, unchanged, exactly
    when the texts of [max_answers] and [min_answers], where present, are
    integers, a missing one counting as zero; [min_answers <= max_answers]
    unless one of them is zero; no answer contains a percent sign; the
    answers are pairwise different; and, when the scores validated, there
    are at least [max_answers] answers.  It returns nothing else. *)
Theorem scores_clean_exact c :
  (ScoresForm.clean c = Ok c ↔
   ∃ nmax nmin,
     ScoresForm.int_get "max_answers" (ScoresForm.texts c) = Ok nmax ∧
     ScoresForm.int_get "min_answers" (ScoresForm.texts c) = Ok nmin ∧
     (nmin = 0 ∨ nmax = 0 ∨ nmin ≤ nmax)%Z ∧
     Forall (λ v, contains "%" v = false)
       (answers_of (ScoresForm.texts c)) ∧
     NoDup (answers_of (ScoresForm.texts c)) ∧
     (is_Some (ScoresForm.scores c) →
      (nmax ≤ Z.of_nat (length (answers_of (ScoresForm.texts c))))%Z)) ∧
  (∀ r, ScoresForm.clean c = Ok r → r = c).
Proof.
  unfold ScoresForm.clean. rewrite answers_loop_spec, app_nil_l.
  set (cd := ScoresForm.texts c).
  destruct (ScoresForm.int_get "max_answers" cd) as [nmax|e]; cbn [bind].
  2: { split; [split; [done|]|done]. by intros (? & ? & ? & _). }
  destruct (ScoresForm.int_get "min_answers" cd) as [nmin|e]; cbn [bind].
  2: { split; [split; [done|]|done]. by intros (? & ? & _ & ? & _). }
  destruct (negb (nmin =? 0)%Z && negb (nmax =? 0)%Z && (nmax <? nmin)%Z)
    eqn:Hord.
  { split; [split; [done|]|done].
    intros (? & ? & [= <-] & [= <-] & Hle & _).
    apply andb_true_iff in Hord as [[Hmin Hmax]%andb_true_iff Hlt].
    apply negb_true_iff, Z.eqb_neq in Hmin, Hmax. apply Z.ltb_lt in Hlt.
    lia. }
  assert (nmin = 0 ∨ nmax = 0 ∨ nmin ≤ nmax)%Z as Hle.
  { destruct (Z.eqb_spec nmin 0); [by left|].
    destruct (Z.eqb_spec nmax 0); [by right; left|].
    destruct (Z.ltb_spec nmax nmin); [done|]. by right; right. }
  destruct (existsb (contains "%") (answers_of cd)) eqn:Hpct; cbn [bind].
  { split; [split; [done|]|done].
    intros (? & ? & _ & _ & _ & Hall%existsb_false_Forall & _). congruence. }
  apply existsb_false_Forall in Hpct.
  destruct (len_set (answers_of cd) <? length (answers_of cd)) eqn:Hdup.
  { split; [split; [done|]|done].
    intros (? & ? & _ & _ & _ & _ & Hnd%len_set_NoDup & _).
    apply Nat.ltb_lt in Hdup. lia. }
  apply Nat.ltb_ge in Hdup.
  assert (NoDup (answers_of cd)) as Hnd.
  { apply len_set_NoDup. pose proof (len_set_le (answers_of cd)). lia. }
  destruct (bool_decide (is_Some (ScoresForm.scores c)) &&
            (Z.of_nat (length (answers_of cd)) <? nmax)%Z) eqn:Hnum.
  { split; [split; [done|]|done].
    intros (? & ? & [= <-] & _ & _ & _ & _ & Hsc).
    apply andb_true_iff in Hnum as [Hs%bool_decide_eq_true Hlt%Z.ltb_lt].
    specialize (Hsc Hs). lia. }
  split; [split; [|done]|by intros r [= <-]].
  intros _. exists nmax, nmin. repeat (split; [done|]).
  intros Hs. apply andb_false_iff in Hnum as [Hno|Hge%Z.ltb_ge]; [|done].
  by apply bool_decide_eq_false in Hno.
Qed.

(** X19. Cleaned data that [QuestionForm.clean] accepts are accepted by
    [ScoresForm.clean] as well, provided that, when the scores validated,
    there are at least [max_answers] answers. *)
Theorem scores_clean_of_question c nmax :
  clean (ScoresForm.texts c) = Ok (ScoresForm.texts c) →
  ScoresForm.int_get "max_answers" (ScoresForm.texts c) = Ok nmax →
  (is_Some (ScoresForm.scores c) →
   (nmax ≤ Z.of_nat (length (answers_of (ScoresForm.texts c))))%Z) →
  ScoresForm.clean c = Ok c.
Proof.
  set (cd := ScoresForm.texts c). intros Hq Hmax Hnum. revert Hq.
  unfold clean, ScoresForm.clean, int_get, ScoresForm.int_get in *.
  fold cd. rewrite !answers_loop_spec, !app_nil_l.
  destruct (dget "max_answers" cd) as [smax|]; [|done].
  destruct (int smax) as [n|]; [|done]. injection Hmax as ->. cbn [bind].
  destruct (dget "min_answers" cd) as [smin|]; [|done].
  destruct (int smin) as [nmin|]; [|done]. cbn [bind].
  destruct (nmax <? nmin)%Z; [done|]. rewrite andb_false_r.
  destruct (existsb (contains "%") (answers_of cd)); [done|]. cbn [bind].
  destruct (len_set (answers_of cd) <? length (answers_of cd)); [done|].
  intros _.
  destruct (decide (is_Some (ScoresForm.scores c))) as [Hs|Hs].
  - specialize (Hnum Hs). apply Z.ltb_ge in Hnum. rewrite Hnum.
    by rewrite andb_false_r.
  - by rewrite (bool_decide_eq_false_2 _ Hs).
Qed.

End scores_form.

Section scores_form_witnesses.
Import QuestionForm.

Lemma scores_clean_of_question_witness :
  ScoresForm.clean
    (ScoresForm.Cleaned (Some ["1"; "2"]) Cases.question_cleaned)
  = Ok (ScoresForm.Cleaned (Some ["1"; "2"]) Cases.question_cleaned).
Proof.
  apply (scores_clean_of_question
           (ScoresForm.Cleaned (Some ["1"; "2"]) Cases.question_cleaned) 2).
  - vm_compute. reflexivity.
  - vm_compute. reflexivity.
  - intros _. vm_compute. intros Hgt. discriminate Hgt.
Defined.

End scores_form_witnesses.
